(** * Task-management REST API: controllers over a relational store

    A shallow embedding of the request handlers of the API
    (task controller, auth controller, auth middleware) together with
    the part of the ORM / database semantics the handlers rely on.

    The store is a pair of tables (rows in insertion order); every
    handler is a function from the store and the request to the new
    store and the HTTP response. *)

From Stdlib Require Import ZArith Lia Bool List Ascii String Sorted Permutation.
From stdpp Require Import base option list gmap strings sorting.

Local Open Scope Z_scope.
Local Open Scope string_scope.

(** ** Data model *)

(** [priority] is the enum low / medium / high of the tasks table. *)
Inductive Priority := low | medium | high.

#[global] Instance Priority_eq_dec : EqDecision Priority.
Proof. solve_decision. Defined.

Definition Priority_eqb (p q : Priority) : bool := bool_decide (p = q).

(** The string under which a priority value appears as an object key. *)
Definition priority_key (p : Priority) : string :=
  match p with low => "low" | medium => "medium" | high => "high" end.

(** A row of the tasks table.  Dates are instants on the integer time
    line; a nullable column is an [option]. *)
Record Task := mkTask {
  t_id : Z;
  t_title : string;
  t_description : option string;
  t_completed : bool;
  t_dueDate : option Z;
  t_priority : Priority;
  t_tags : option (list string);
  t_userId : Z;
  t_createdAt : Z
}.

(** A row of the users table; [u_password] is the stored (hashed)
    password column. *)
Record User := mkUser {
  u_id : Z;
  u_name : string;
  u_email : string;
  u_password : string;
  u_active : bool;
  u_lastAccess : option Z
}.

(** The store: both tables and the two id sequences. *)
Record DB := mkDB {
  users : list User;
  tasks : list Task;
  nextUserId : Z;
  nextTaskId : Z
}.

Definition set_tasks (db : DB) (ts : list Task) : DB :=
  {| users := users db; tasks := ts;
     nextUserId := nextUserId db; nextTaskId := nextTaskId db |}.

Definition set_users (db : DB) (us : list User) : DB :=
  {| users := us; tasks := tasks db;
     nextUserId := nextUserId db; nextTaskId := nextTaskId db |}.

(** ** JSON values and responses *)

Inductive JVal :=
| JNull
| JBool (b : bool)
| JNum (z : Z)
| JStr (s : string).

(** A JSON object with scalar members, as a finite map from keys. *)
Abbreviation JObj := (gmap string JVal).

Record Pagination := mkPagination {
  pg_total : Z;
  pg_page : Z;
  pg_limit : Z;
  pg_totalPages : Z
}.

(** The response bodies the handlers produce. *)
Inductive Body :=
| BMessage (message : string)
    (* { success: false | true, message } *)
| BTask (message : option string) (task : Task)
    (* { success: true, [message], data: { task } } *)
| BTasks (rows : list Task) (pagination : Pagination)
    (* { success: true, data: { tasks, pagination } } *)
| BStatistics (total completed pending : Z) (byPriority : gmap string Z)
    (* { success: true, data: { total, completed, pending, byPriority } } *)
| BUserToken (message : string) (user : JObj) (token : string)
    (* { success: true, message, data: { user, token } } *)
| BUser (message : option string) (user : option JObj).
    (* { success: true, [message], data: { user } }; [None] is null *)

Record Response := mkResponse {
  status : Z;
  success : bool;
  body : Body
}.

(** ** The ORM: where-clauses over the tasks table *)

(** The where objects the task controller builds.  A [None] member is
    an absent key.  [w_search] is the pattern of the
    [Op.or]-of-[Op.iLike] pair on title and description. *)
Record TaskWhere := mkWhere {
  w_id : option Z;
  w_userId : option Z;
  w_completed : option bool;
  w_priority : option Priority;
  w_search : option string
}.

Definition opt_test {A} (o : option A) (p : A -> bool) : bool :=
  match o with None => true | Some a => p a end.

(** ** Numbers of the language

    A number is an IEEE-754 binary64 value.  The task listing only ever
    computes with non-negative integers and one quotient of two of them;
    an integer-valued number is represented by the integer it denotes.
    The exponent range is not represented (every number is finite). *)

Module JS.

(** Rounding of a non-negative integer to 53 significant bits, to
    nearest, ties to even. *)
Definition round53 (z : Z) : Z :=
  if (z <? 2 ^ 53)%Z then z
  else
    let sh := (Z.log2 z - 52)%Z in
    let q := Z.shiftr z sh in
    let r := (z - Z.shiftl q sh)%Z in
    let half := (2 ^ (sh - 1))%Z in
    let q' := if (half <? r)%Z || ((r =? half)%Z && Z.odd q)
              then (q + 1)%Z else q in
    Z.shiftl q' sh.

(** The number nearest to an integer: what a string of decimal digits
    converts to, and what an exact integer result is rounded to. *)
Definition toNumber (z : Z) : Z :=
  if (z <? 0)%Z then (- round53 (- z))%Z else round53 z.

Definition sub (a b : Z) : Z := toNumber (a - b).
Definition mul (a b : Z) : Z := toNumber (a * b).

Fixpoint ndigits_aux (fuel : nat) (z : Z) : Z :=
  match fuel with
  | O => 1
  | S f => if (z <? 10)%Z then 1 else (1 + ndigits_aux f (z / 10))%Z
  end.

(** The number of decimal digits of a positive integer. *)
Definition ndigits (z : Z) : Z := ndigits_aux (Z.to_nat (Z.log2 z)) z.

(** The digits of [Number::toString]: the least [k] and an integer [s]
    of [k] digits such that [s * 10 ^ (n - k)] is the number [v]; of two
    such [s] the one closer to [v], the even one when they are equally
    close.  The result is [(s, k)]. *)
Fixpoint shortest_digits (v n : Z) (ks : list Z) : Z * Z :=
  match ks with
  | [] => (v, n)
  | k :: ks' =>
      let p := (10 ^ (n - k))%Z in
      let lo := (v / p)%Z in
      let hi := (lo + 1)%Z in
      let ok_lo := (toNumber (lo * p) =? v)%Z in
      let ok_hi := (toNumber (hi * p) =? v)%Z in
      if ok_lo && ok_hi
      then ((if (v - lo * p <? hi * p - v)%Z then lo
             else if (hi * p - v <? v - lo * p)%Z then hi
             else if Z.even lo then lo else hi), k)
      else if ok_lo then (lo, k)
      else if ok_hi then (hi, k)
      else shortest_digits v n ks'
  end.

Definition up_to_17 : list Z :=
  [1; 2; 3; 4; 5; 6; 7; 8; 9; 10; 11; 12; 13; 14; 15; 16; 17]%Z.

(** [parseInt(v)] of a non-negative integer-valued number [v]: the
    number is converted to a string first.  Below [10 ^ 21] the string
    is the decimal numeral of [v].  From [10 ^ 21] on it is in
    exponent form, one digit, then a point or the letter e, and
    [parseInt] stops after that first digit. *)
Definition parseInt_number (v : Z) : Z :=
  if (v <? 10 ^ 21)%Z then v
  else
    let '(s, k) := shortest_digits v (ndigits v) up_to_17 in
    if (s <? 10 ^ k)%Z then (s / 10 ^ (k - 1))%Z else 1%Z.

(** [parseInt(s)] of a string of decimal digits denoting [z]. *)
Definition parseInt_string (z : Z) : Z := toNumber z.

(** [Math.ceil(a / b)] for integer-valued [0 <= a], [0 < b]: the
    quotient is rounded to 53 significant bits (to nearest, ties to
    even) and then rounded up to an integer.  The rounded quotient is
    [m * 2 ^ (- k)] with [2 ^ 52 <= m <= 2 ^ 53]. *)
Definition ceil_div (a b : Z) : Z :=
  if (a =? 0)%Z then 0%Z
  else
    let k0 := (52 + Z.log2 b - Z.log2 a)%Z in
    let scaled_lt (k : Z) :=
      if (0 <=? k)%Z then (a * 2 ^ k <? 2 ^ 52 * b)%Z
      else (a <? 2 ^ 52 * b * 2 ^ (- k))%Z in
    let k := if scaled_lt k0 then (k0 + 1)%Z else k0 in
    let num := if (0 <=? k)%Z then (a * 2 ^ k)%Z else a in
    let den := if (0 <=? k)%Z then b else (b * 2 ^ (- k))%Z in
    let q := (num / den)%Z in
    let r := (num mod den)%Z in
    let m := if (den <? 2 * r)%Z || ((2 * r =? den)%Z && Z.odd q)
             then (q + 1)%Z else q in
    if (0 <=? k)%Z then ((m + 2 ^ k - 1) / 2 ^ k)%Z
    else (m * 2 ^ (- k))%Z.

End JS.

Section TaskService.

(** The database's case-insensitive pattern match, [text ILIKE pattern]. *)
Variable iLike : string -> string -> bool.

(** A NULL text does not match any pattern. *)
Definition iLike_opt (text : option string) (pattern : string) : bool :=
  match text with None => false | Some s => iLike s pattern end.

Definition where_matches (w : TaskWhere) (t : Task) : bool :=
  opt_test (w_id w) (fun i => t_id t =? i)%Z
  && opt_test (w_userId w) (fun u => t_userId t =? u)%Z
  && opt_test (w_completed w) (fun c => Bool.eqb (t_completed t) c)
  && opt_test (w_priority w) (fun p => Priority_eqb (t_priority t) p)
  && opt_test (w_search w)
       (fun pat => iLike (t_title t) pat || iLike_opt (t_description t) pat).

(** [Task.findOne({ where })]: the first matching row, if any. *)
Definition Task_findOne (w : TaskWhere) (db : DB) : option Task :=
  List.find (where_matches w) (tasks db).

(** [Task.count({ where })]. *)
Definition Task_count (w : TaskWhere) (db : DB) : Z :=
  Z.of_nat (length (List.filter (where_matches w) (tasks db))).

(** The where object [{ id, userId }]. *)
Definition where_id_user (id userId : Z) : TaskWhere :=
  {| w_id := Some id; w_userId := Some userId; w_completed := None;
     w_priority := None; w_search := None |}.

(** The where object [{ userId }]. *)
Definition where_user (userId : Z) : TaskWhere :=
  {| w_id := None; w_userId := Some userId; w_completed := None;
     w_priority := None; w_search := None |}.

(** ** Task controller: getTask, createTask, updateTask, deleteTask *)

(** The handlers are given for requests whose query the database
    carries out.  An id outside the range of the id column makes the
    query fail, and the handler then answers 500; that answer is not
    represented here, ids are the ids of rows or other values of the
    column. *)

Definition not_found : Response :=
  {| status := 404; success := false; body := BMessage "Task not found" |}.

Definition getTask (db : DB) (userId id : Z) : DB * Response :=
  match Task_findOne (where_id_user id userId) db with
  | None => (db, not_found)
  | Some task =>
      (db, {| status := 200; success := true; body := BTask None task |})
  end.

(** The body of a create request, after the route's validators. *)
Record CreateBody := mkCreateBody {
  c_title : string;
  c_description : option string;
  c_dueDate : option Z;
  c_priority : option Priority;
  c_tags : option (list string)
}.

(** [Task.create]: the row gets the next id of the sequence, the column
    defaults (completed false, priority medium) and the creation time. *)
Definition createTask (db : DB) (now userId : Z) (b : CreateBody)
  : DB * Response :=
  let task :=
    {| t_id := nextTaskId db;
       t_title := c_title b;
       t_description := c_description b;
       t_completed := false;
       t_dueDate := c_dueDate b;
       t_priority := default medium (c_priority b);
       t_tags := c_tags b;
       t_userId := userId;
       t_createdAt := now |} in
  ({| users := users db; tasks := tasks db ++ [task];
      nextUserId := nextUserId db; nextTaskId := nextTaskId db + 1 |},
   {| status := 201; success := true;
      body := BTask (Some "Task created successfully") task |}).

(** The body of an update request.  A member that is [None] is
    [undefined] (not supplied).  [tags] has no validator, so a supplied
    [null] is possible and is [Some None]. *)
Record UpdateBody := mkUpdateBody {
  b_title : option string;
  b_description : option string;
  b_completed : option bool;
  b_dueDate : option Z;
  b_priority : option Priority;
  b_tags : option (option (list string))
}.

(** [task.update(values)]: members that are [undefined] are dropped,
    the others are assigned. *)
Definition Task_update (t : Task) (b : UpdateBody) : Task :=
  {| t_id := t_id t;
     t_title := default (t_title t) (b_title b);
     t_description :=
       match b_description b with Some d => Some d | None => t_description t end;
     t_completed := default (t_completed t) (b_completed b);
     t_dueDate :=
       match b_dueDate b with Some d => Some d | None => t_dueDate t end;
     t_priority := default (t_priority t) (b_priority b);
     t_tags := default (t_tags t) (b_tags b);
     t_userId := t_userId t;
     t_createdAt := t_createdAt t |}.

(** Writing an instance back: the row with the instance's primary key
    is replaced. *)
Definition save_task (t' : Task) (ts : list Task) : list Task :=
  List.map (fun t => if (t_id t =? t_id t')%Z then t' else t) ts.

(** [task.destroy()]: the row with the instance's primary key is removed. *)
Definition destroy_task (t' : Task) (ts : list Task) : list Task :=
  List.filter (fun t => negb (t_id t =? t_id t')%Z) ts.

Definition updateTask (db : DB) (userId id : Z) (b : UpdateBody)
  : DB * Response :=
  match Task_findOne (where_id_user id userId) db with
  | None => (db, not_found)
  | Some task =>
      let task' := Task_update task b in
      (set_tasks db (save_task task' (tasks db)),
       {| status := 200; success := true;
          body := BTask (Some "Task updated successfully") task' |})
  end.

Definition deleteTask (db : DB) (userId id : Z) : DB * Response :=
  match Task_findOne (where_id_user id userId) db with
  | None => (db, not_found)
  | Some task =>
      (set_tasks db (destroy_task task (tasks db)),
       {| status := 200; success := true;
          body := BMessage "Task deleted successfully" |})
  end.

(** ** The ORM: ordered, paginated queries *)

(** The columns the listing orders by. *)
Inductive OrderColumn := col_completed | col_dueDate | col_createdAt.
Inductive Direction := ASC | DESC.

(** Comparison of two rows on one column.  [false] sorts before [true];
    a NULL sorts as larger than every non-null value. *)
Definition compare_column (c : OrderColumn) (a b : Task) : comparison :=
  match c with
  | col_completed =>
      match t_completed a, t_completed b with
      | false, true => Lt
      | true, false => Gt
      | _, _ => Eq
      end
  | col_dueDate =>
      match t_dueDate a, t_dueDate b with
      | Some x, Some y => (x ?= y)%Z
      | Some _, None => Lt
      | None, Some _ => Gt
      | None, None => Eq
      end
  | col_createdAt => (t_createdAt a ?= t_createdAt b)%Z
  end.

Definition directed (d : Direction) (c : comparison) : comparison :=
  match d with ASC => c | DESC => CompOpp c end.

(** ORDER BY a list of columns: the first column that tells two rows
    apart decides. *)
Fixpoint order_compare (order : list (OrderColumn * Direction))
    (a b : Task) : comparison :=
  match order with
  | [] => Eq
  | (c, d) :: order' =>
      match directed d (compare_column c a b) with
      | Eq => order_compare order' a b
      | r => r
      end
  end.

Definition order_le (order : list (OrderColumn * Direction))
    (a b : Task) : Prop :=
  order_compare order a b <> Gt.

#[global] Instance order_le_dec order a b : Decision (order_le order a b).
Proof. unfold order_le. solve_decision. Defined.

(** [Task.findAndCountAll({ where, limit, offset, order })]: the count
    is that of all matching rows; the rows are the matching rows in
    order, without the first [offset], at most [limit] of them.  The
    range of the database's integers is not represented: an offset
    beyond it makes the query fail, and the handler then answers 500.
    Rows that tie on every column of the order come in the order of
    the table here; the database leaves their order open, also from
    one query to the next. *)
Definition Task_findAndCountAll (w : TaskWhere) (limit offset : Z)
    (order : list (OrderColumn * Direction)) (db : DB) : Z * list Task :=
  let matching := List.filter (where_matches w) (tasks db) in
  (Z.of_nat (length matching),
   take (Z.to_nat limit)
     (drop (Z.to_nat offset) (merge_sort (order_le order) matching))).

(** ** Task controller: getTasks *)

(** The query of a listing request, after the route's validators.
    [q_page] and [q_limit] hold the integer a digit string denotes
    ([None]: the parameter is omitted); [q_completed] holds the string
    as sent. *)
Record ListQuery := mkListQuery {
  q_completed : option string;
  q_priority : option Priority;
  q_page : option Z;
  q_limit : option Z;
  q_search : option string
}.

Definition listing_order : list (OrderColumn * Direction) :=
  [(col_completed, ASC); (col_dueDate, ASC); (col_createdAt, DESC)].

Definition listing_where (userId : Z) (q : ListQuery) : TaskWhere :=
  {| w_id := None;
     w_userId := Some userId;
     w_completed := (fun c => String.eqb c "true") <$> q_completed q;
     w_priority := q_priority q;
     w_search :=
       match q_search q with
       | Some s => if String.eqb s "" then None else Some ("%" ++ s ++ "%")
       | None => None
       end |}.

Definition getTasks (db : DB) (userId : Z) (q : ListQuery) : DB * Response :=
  let page := default 1%Z (q_page q) in
  let limit := default 10%Z (q_limit q) in
  let where_ := listing_where userId q in
  let offset := JS.mul (JS.sub (JS.toNumber page) 1) (JS.toNumber limit) in
  let '(count, rows) :=
    Task_findAndCountAll where_ (JS.parseInt_string limit)
      (JS.parseInt_number offset) listing_order db in
  (db,
   {| status := 200; success := true;
      body := BTasks rows
        {| pg_total := count;
           pg_page := JS.parseInt_string page;
           pg_limit := JS.parseInt_string limit;
           pg_totalPages := JS.ceil_div count (JS.toNumber limit) |} |}).

(** ** Task controller: getStatistics *)

(** One more row with priority [p] in the groups found so far. *)
Fixpoint count_into (p : Priority) (groups : list (Priority * Z))
  : list (Priority * Z) :=
  match groups with
  | [] => [(p, 1%Z)]
  | (p', n) :: groups' =>
      if Priority_eqb p' p then (p', (n + 1)%Z) :: groups'
      else (p', n) :: count_into p groups'
  end.

(** [Task.findAll({ where, attributes: [priority, COUNT(id)],
    group: [priority] })]: one item per priority that occurs. *)
Definition Task_countByPriority (w : TaskWhere) (db : DB)
  : list (Priority * Z) :=
  fold_left (fun groups t => count_into (t_priority t) groups)
    (List.filter (where_matches w) (tasks db)) [].

Definition getStatistics (db : DB) (userId : Z) : DB * Response :=
  let total := Task_count (where_user userId) db in
  let completed :=
    Task_count {| w_id := None; w_userId := Some userId;
                  w_completed := Some true; w_priority := None;
                  w_search := None |} db in
  let pending :=
    Task_count {| w_id := None; w_userId := Some userId;
                  w_completed := Some false; w_priority := None;
                  w_search := None |} db in
  let byPriority := Task_countByPriority (where_user userId) db in
  (db,
   {| status := 200; success := true;
      body := BStatistics total completed pending
        (fold_left
           (fun (acc : gmap string Z) item => <[priority_key item.1 := item.2]> acc)
           byPriority ∅) |}).

End TaskService.

(** ** The ORM: the users table *)

(** All columns of a user row, as the object an instance serialises to. *)
Definition User_toJSON (u : User) : JObj :=
  <["id" := JNum (u_id u)]>
  (<["name" := JStr (u_name u)]>
  (<["email" := JStr (u_email u)]>
  (<["password" := JStr (u_password u)]>
  (<["active" := JBool (u_active u)]>
  (<["lastAccess" :=
      match u_lastAccess u with Some d => JNum d | None => JNull end]> ∅))))).

(** [User.findOne({ where: { email } })]. *)
Definition User_findOne_email (email : string) (db : DB) : option User :=
  List.find (fun u => String.eqb (u_email u) email) (users db).

(** [User.findByPk(id, { attributes: { exclude: ['password'] } })]. *)
Definition User_findByPk_exclude_password (id : Z) (db : DB) : option JObj :=
  (fun u => delete "password" (User_toJSON u))
    <$> List.find (fun u => (u_id u =? id)%Z) (users db).

(** Writing a user instance back: the row with its primary key is
    replaced. *)
Definition save_user (u' : User) (us : list User) : list User :=
  List.map (fun u => if (u_id u =? u_id u')%Z then u' else u) us.

(** [User.update({ name }, { where: { id } })]; an [undefined] name is
    dropped from the values. *)
Definition User_update_name (name : option string) (id : Z)
    (us : list User) : list User :=
  List.map
    (fun u =>
       if (u_id u =? id)%Z
       then {| u_id := u_id u; u_name := default (u_name u) name;
               u_email := u_email u; u_password := u_password u;
               u_active := u_active u; u_lastAccess := u_lastAccess u |}
       else u)
    us.

(** The object literal [{ id: user.id, name: user.name, email: user.email }]. *)
Definition id_name_email (u : User) : JObj :=
  <["id" := JNum (u_id u)]>
  (<["name" := JStr (u_name u)]>
  (<["email" := JStr (u_email u)]> ∅)).

(** [s.split(' ')[1]]: what lies between the first space and the next
    one; [None] ([undefined]) when there is no space. *)
Fixpoint until_space (s : string) : string :=
  match s with
  | EmptyString => EmptyString
  | String c s' =>
      if Ascii.eqb c " "%char then EmptyString else String c (until_space s')
  end.

Fixpoint after_space (s : string) : option string :=
  match s with
  | EmptyString => None
  | String c s' => if Ascii.eqb c " "%char then Some s' else after_space s'
  end.

Definition split_space_1 (s : string) : option string :=
  until_space <$> after_space s.

(** The environment variables the token functions read. *)
Record Env := mkEnv {
  JWT_SECRET : string;
  JWT_EXPIRE : string
}.

(** What [jwt.verify] does: it returns the payload or throws. *)
Inductive Verified :=
| Decoded (payload : JObj)
| JsonWebTokenError
| TokenExpiredError
| OtherError.

(** What the auth middleware does with a request: it answers it, or
    attaches the user and calls the next handler. *)
Inductive Guard :=
| Rejected (r : Response)
| Next (reqUser : JObj).

Section AuthService.

(** Modelled from the spec: the User model (models/User.js is not among
    the sources).  The password is stored only as a salted one-way
    hash, computed by a hook when the row is created;
    [validatePassword] of an instance checks a candidate password
    against the stored hash. *)
Variable hashPassword : string -> string.
Variable validatePassword : string -> string -> bool.

(** The token library: [jwt.sign(payload, secret, { expiresIn })] at a
    given time and [jwt.verify(token, secret)] at a given time. *)
Variable jwt_sign : JObj -> string -> string -> Z -> string.
Variable jwt_verify : string -> string -> Z -> Verified.

Definition generarToken (env : Env) (now : Z) (payload : JObj) : string :=
  jwt_sign payload (JWT_SECRET env) (JWT_EXPIRE env) now.

Definition verificarToken (env : Env) (now : Z) (token : string) : Verified :=
  jwt_verify token (JWT_SECRET env) now.

(** Modelled from the spec: [User.create] of the missing User model.
    The row gets the next id of the sequence, the hashed password and
    the column defaults (active true, lastAccess null). *)
Definition User_create (db : DB) (name email password : string) : User :=
  {| u_id := nextUserId db; u_name := name; u_email := email;
     u_password := hashPassword password; u_active := true;
     u_lastAccess := None |}.

(** *** Auth controller *)

Definition register (db : DB) (env : Env) (now : Z)
    (name email password : string) : DB * Response :=
  match User_findOne_email email db with
  | Some _ =>
      (db, {| status := 400; success := false;
              body := BMessage "Email already registered" |})
  | None =>
      let user := User_create db name email password in
      let token := generarToken env now (id_name_email user) in
      ({| users := users db ++ [user]; tasks := tasks db;
          nextUserId := nextUserId db + 1; nextTaskId := nextTaskId db |},
       {| status := 201; success := true;
          body := BUserToken "User registered successfully"
                    (id_name_email user) token |})
  end.

Definition login (db : DB) (env : Env) (now : Z)
    (email password : string) : DB * Response :=
  match User_findOne_email email db with
  | None =>
      (db, {| status := 401; success := false;
              body := BMessage "Invalid credentials" |})
  | Some user =>
      if negb (u_active user) then
        (db, {| status := 403; success := false;
                body := BMessage "User inactive. Contact administrator" |})
      else if negb (validatePassword (u_password user) password) then
        (db, {| status := 401; success := false;
                body := BMessage "Invalid credentials" |})
      else
        let user' :=
          {| u_id := u_id user; u_name := u_name user;
             u_email := u_email user; u_password := u_password user;
             u_active := u_active user; u_lastAccess := Some now |} in
        let token := generarToken env now (id_name_email user') in
        (set_users db (save_user user' (users db)),
         {| status := 200; success := true;
            body := BUserToken "Session started successfully"
                      (id_name_email user') token |})
  end.

Definition profile (db : DB) (reqUser : JObj) : DB * Response :=
  (db, {| status := 200; success := true; body := BUser None (Some reqUser) |}).

(** A where clause on an [undefined] id makes the ORM throw; the
    handler answers 500. *)
Definition updateProfile (db : DB) (reqUser : JObj) (name : option string)
  : DB * Response :=
  match reqUser !! "id" with
  | Some (JNum id) =>
      let db' := set_users db (User_update_name name id (users db)) in
      (db', {| status := 200; success := true;
               body := BUser (Some "Profile updated successfully")
                         (User_findByPk_exclude_password id db') |})
  | _ =>
      (db, {| status := 500; success := false;
              body := BMessage "Error updating profile" |})
  end.

(** *** Auth middleware *)

Definition unauthorized (message : string) : Guard :=
  Rejected {| status := 401; success := false; body := BMessage message |}.

Definition token_not_provided : string :=
  "Token not provided. Include token in Authorization header: Bearer <token>".

(** A header that starts with [Bearer ] has a space, so the token is
    defined there; a missing token makes [jwt.verify] throw a
    [JsonWebTokenError]. *)
Definition protectRoute (db : DB) (env : Env) (now : Z)
    (authorization : option string) : Guard :=
  match authorization with
  | None => unauthorized token_not_provided
  | Some authHeader =>
      if negb (String.prefix "Bearer " authHeader)
      then unauthorized token_not_provided
      else
        let decoded :=
          match split_space_1 authHeader with
          | Some token => verificarToken env now token
          | None => JsonWebTokenError
          end in
        match decoded with
        | Decoded payload =>
            let user :=
              match payload !! "id" with
              | Some (JNum id) => User_findByPk_exclude_password id db
              | _ => None
              end in
            match user with
            | None => unauthorized "User not found or invalid token"
            | Some u => Next u
            end
        | JsonWebTokenError => unauthorized "Invalid token"
        | TokenExpiredError => unauthorized "Token expired"
        | OtherError => unauthorized "Unauthorized"
        end
  end.

End AuthService.

(** ** Requests and stores used in examples *)

Definition set_page (q : ListQuery) (page : Z) : ListQuery :=
  {| q_completed := q_completed q; q_priority := q_priority q;
     q_page := Some page; q_limit := q_limit q; q_search := q_search q |}.

Definition set_limit (q : ListQuery) (limit : Z) : ListQuery :=
  {| q_completed := q_completed q; q_priority := q_priority q;
     q_page := q_page q; q_limit := Some limit; q_search := q_search q |}.

Definition task_of (id userId : Z) (title : string) (completed : bool)
    (dueDate : option Z) (p : Priority) (createdAt : Z) : Task :=
  {| t_id := id; t_title := title; t_description := None;
     t_completed := completed; t_dueDate := dueDate; t_priority := p;
     t_tags := None; t_userId := userId; t_createdAt := createdAt |}.

(** User 1 has two tasks. *)
Definition two_tasks_db : DB :=
  {| users := [];
     tasks := [task_of 1 1 "first" false None medium 100;
               task_of 2 1 "second" false None medium 200];
     nextUserId := 1; nextTaskId := 3 |}.

(** ** Reading the statistics *)

(** The count of priority [p] in the grouped rows, zero when [p] has
    no group. *)
Definition group_count (p : Priority) (groups : list (Priority * Z)) : Z :=
  match List.find (fun g => Priority_eqb g.1 p) groups with
  | Some g => g.2
  | None => 0%Z
  end.

Definition groups_total (groups : list (Priority * Z)) : Z :=
  (group_count low groups + group_count medium groups
   + group_count high groups)%Z.

(** The value of the priority mapping at [p], a missing key being zero. *)
Definition count_of (m : gmap string Z) (p : Priority) : Z :=
  default 0%Z (m !! priority_key p).

(** The sum of the values that are in the mapping. *)
Definition sum_values (m : gmap string Z) : Z :=
  map_fold (fun (_ : string) (v acc : Z) => (v + acc)%Z) 0%Z m.

(** The groups have distinct priorities and positive counts. *)
Definition groups_ok (g : list (Priority * Z)) : Prop :=
  List.NoDup (List.map fst g) /\ Forall (fun x => (0 < x.2)%Z) g.

(** ** Stores that differ in a stored hash *)

Definition with_password (h : string) (u : User) : User :=
  {| u_id := u_id u; u_name := u_name u; u_email := u_email u;
     u_password := h; u_active := u_active u;
     u_lastAccess := u_lastAccess u |}.

Definition set_password_row (uid : Z) (h : string) (u : User) : User :=
  if (u_id u =? uid)%Z then with_password h u else u.

(** The store in which the user with id [uid] has the stored hash [h]
    and everything else is the same. *)
Definition set_password (uid : Z) (h : string) (db : DB) : DB :=
  set_users db (List.map (set_password_row uid h) (users db)).

(** The user object of a response, if it has one. *)
Definition response_user (r : Response) : option JObj :=
  match body r with
  | BUserToken _ u _ => Some u
  | BUser _ u => u
  | _ => None
  end.

(** ** Comparison functions *)

(** A comparison function of a total preorder: swapping the arguments
    flips the result, equal rows compare alike, and [Lt] is transitive. *)
Record comparator (cmp : Task -> Task -> comparison) : Prop := {
  cmp_flip : forall a b, cmp b a = CompOpp (cmp a b);
  cmp_eq_l : forall a b c, cmp a b = Eq -> cmp a c = cmp b c;
  cmp_lt_trans : forall a b c, cmp a b = Lt -> cmp b c = Lt -> cmp a c = Lt
}.

(** The first comparison decides, the second breaks its ties. *)
Definition lex (c1 c2 : Task -> Task -> comparison) (a b : Task) : comparison :=
  match c1 a b with Eq => c2 a b | r => r end.

(** ** Example requests *)

(** The example of the partial update: a body with only
    [completed: true]. *)
Definition only_completed_true : UpdateBody :=
  {| b_title := None; b_description := None; b_completed := Some true;
     b_dueDate := None; b_priority := None; b_tags := None |}.

(** ** Instances used in examples *)

(** A pattern match in which a text matches only itself. *)
Definition exact_iLike (text pattern : string) : bool :=
  String.eqb text pattern.

Definition demo_hash (password : string) : string := "hashed:" ++ password.

Definition demo_validate (stored password : string) : bool :=
  String.eqb stored (demo_hash password).

Definition demo_sign (payload : JObj) (secret expiresIn : string) (now : Z)
  : string :=
  match payload !! "email" with
  | Some (JStr e) => "jwt:" ++ e
  | _ => "jwt:"
  end.

(** Every token that starts with [jwt:] is a token of user 1. *)
Definition demo_verify (token secret : string) (now : Z) : Verified :=
  if String.prefix "jwt:" token
  then Decoded (<["id" := JNum 1]> ∅)
  else JsonWebTokenError.

Definition demo_env : Env := {| JWT_SECRET := "secret"; JWT_EXPIRE := "7d" |}.

Definition ana : User :=
  {| u_id := 1; u_name := "Ana"; u_email := "ana@example.com";
     u_password := demo_hash "Secret1"; u_active := true;
     u_lastAccess := None |}.

Definition luis : User :=
  {| u_id := 2; u_name := "Luis"; u_email := "luis@example.com";
     u_password := demo_hash "Secret2"; u_active := false;
     u_lastAccess := None |}.

(** Ana has three tasks, Luis has one. *)
Definition demo_db : DB :=
  {| users := [ana; luis];
     tasks := [task_of 1 1 "report" true (Some 50) high 100;
               task_of 2 1 "call" false None low 200;
               task_of 3 1 "email" false (Some 70) low 300;
               task_of 4 2 "plan" false (Some 10) medium 400];
     nextUserId := 3; nextTaskId := 5 |}.

Definition no_query : ListQuery :=
  {| q_completed := None; q_priority := None; q_page := None;
     q_limit := None; q_search := None |}.

(** ** Well-formed stores *)

(** The primary key of the tasks table: ids are unique and were all
    issued by the sequence. *)
Definition tasks_wf (db : DB) : Prop :=
  NoDup (List.map t_id (tasks db))
  /\ Forall (fun t => (t_id t < nextTaskId db)%Z) (tasks db).

Definition empty_db : DB :=
  {| users := []; tasks := []; nextUserId := 1; nextTaskId := 1 |}.

(** The unique keys of the users table: emails are unique, ids are
    unique and were all issued by the sequence. *)
Definition users_wf (db : DB) : Prop :=
  NoDup (List.map u_email (users db))
  /\ NoDup (List.map u_id (users db))
  /\ Forall (fun u => (u_id u < nextUserId db)%Z) (users db).

(** ** Pages of a listing *)

(** The tasks of a listing response. *)
Definition listed_rows (r : Response) : list Task :=
  match body r with
  | BTasks rows _ => rows
  | _ => []
  end.

(** The rows of page [page] of a listing with limit [limit]. *)
Definition page_rows (iLike : string -> string -> bool) (db : DB)
    (userId : Z) (q : ListQuery) (limit page : Z) : list Task :=
  listed_rows
    (snd (getTasks iLike db userId (set_page (set_limit q limit) page))).

(** Pages 1 to [k], one after the other. *)
Fixpoint first_pages (iLike : string -> string -> bool) (db : DB)
    (userId : Z) (q : ListQuery) (limit : Z) (k : nat) : list Task :=
  match k with
  | O => []
  | S k' =>
      first_pages iLike db userId q limit k'
      ++ page_rows iLike db userId q limit (Z.of_nat (S k'))
  end.

(** ** Stores that differ in an active flag *)

Definition set_active_row (uid : Z) (a : bool) (u : User) : User :=
  if (u_id u =? uid)%Z
  then {| u_id := u_id u; u_name := u_name u; u_email := u_email u;
          u_password := u_password u; u_active := a;
          u_lastAccess := u_lastAccess u |}
  else u.

Definition set_active (uid : Z) (a : bool) (db : DB) : DB :=
  set_users db (List.map (set_active_row uid a) (users db)).

Definition guard_passes (g : Guard) : bool :=
  match g with Next _ => true | Rejected _ => false end.

(** ** Connecting to the database with retries *)

(** How [connectWithRetry] ends: it returns [true], it throws the
    error of an attempt, or it falls out of the loop and returns
    [undefined]. *)
Inductive Connection :=
| Connected
| Thrown (attempt : nat)
| ReturnedUndefined.

(** The loop of [connectWithRetry] from iteration [i] on, with
    [remaining] iterations to go.  [authenticate i] tells whether the
    call of [sequelize.authenticate()] in iteration [i] succeeds.  The
    test [i === retries - 1] is [S i = retries].  The result is the way
    the function ends, the number of calls of [authenticate] and the
    time spent waiting. *)
Fixpoint retry_loop (authenticate : nat -> bool) (retries : nat) (delay : Z)
    (remaining i : nat) (waited : Z) : Connection * nat * Z :=
  match remaining with
  | O => (ReturnedUndefined, i, waited)
  | S remaining' =>
      if authenticate i then (Connected, S i, waited)
      else if Nat.eqb (S i) retries then (Thrown i, S i, waited)
      else retry_loop authenticate retries delay remaining' (S i)
             (waited + delay)%Z
  end.

Definition connectWithRetry (authenticate : nat -> bool) (retries : nat)
    (delay : Z) : Connection * nat * Z :=
  retry_loop authenticate retries delay retries 0 0%Z.

(** A database that accepts connections from the fourth attempt on. *)
Definition ready_at_fourth (i : nat) : bool := (3 <=? i)%nat.

(** A create request with a title only. *)
Definition title_only (title : string) : CreateBody :=
  {| c_title := title; c_description := None; c_dueDate := None;
     c_priority := None; c_tags := None |}.

(** ** The role check of the auth middleware *)

#[global] Instance JVal_eq_dec : EqDecision JVal.
Proof. solve_decision. Defined.

(** Whether a value counts as true in a condition. *)
Definition truthy (v : JVal) : bool :=
  match v with
  | JNull => false
  | JBool b => b
  | JNum z => negb (z =? 0)%Z
  | JStr s => negb (String.eqb s "")
  end.

(** [allowedRoles.includes(role)]. *)
Definition includes (allowedRoles : list JVal) (role : JVal) : bool :=
  bool_decide (role ∈ allowedRoles).

(** [verifyRole(...allowedRoles)] applied to a request whose user is
    [reqUser] ([None]: no user was attached).  A user without a [role]
    member has an [undefined] role, which does not count as true. *)
Definition verifyRole (allowedRoles : list JVal) (reqUser : option JObj)
  : Guard :=
  match reqUser with
  | None =>
      Rejected {| status := 401; success := false;
                  body := BMessage "User not authenticated" |}
  | Some user =>
      if match user !! "role" with
         | Some role => truthy role && includes allowedRoles role
         | None => false
         end
      then Next user
      else Rejected
             {| status := 403; success := false;
                body := BMessage
                  "You do not have permission to access this resource" |}
  end.

(** * Properties *)

(** ** Ownership scoping of single-task operations *)

Section TaskProperties.

Variable iLike : string -> string -> bool.

Lemma where_id_user_matches id userId t :
  where_matches iLike (where_id_user id userId) t = true
  <-> t_id t = id /\ t_userId t = userId.
Proof.
  unfold where_matches, where_id_user; simpl.
  rewrite !andb_true_r, andb_true_iff, !Z.eqb_eq. tauto.
Qed.

Lemma where_user_matches userId t :
  where_matches iLike (where_user userId) t = (t_userId t =? userId)%Z.
Proof.
  unfold where_matches, where_user; simpl. now rewrite !andb_true_r.
Qed.

Lemma Task_findOne_Some id userId db t :
  Task_findOne iLike (where_id_user id userId) db = Some t ->
  In t (tasks db) /\ t_id t = id /\ t_userId t = userId.
Proof.
  unfold Task_findOne. intros H. apply find_some in H as [Hin Hm].
  split; [assumption | now apply where_id_user_matches].
Qed.

(** In a well-formed store a row is determined by its id. *)
Lemma tasks_wf_id_inj db a b :
  tasks_wf db -> In a (tasks db) -> In b (tasks db) ->
  t_id a = t_id b -> a = b.
Proof.
  intros [Hnd _]. revert Hnd. generalize (tasks db) as ts.
  induction ts as [|x ts IH]; simpl; [tauto|].
  intros Hnd Ha Hb Heq. apply NoDup_cons in Hnd as [Hx Hnd].
  destruct Ha as [-> | Ha], Hb as [-> | Hb]; auto.
  - exfalso. apply Hx. rewrite Heq. apply list_elem_of_In, in_map, Hb.
  - exfalso. apply Hx. rewrite <- Heq. apply list_elem_of_In, in_map, Ha.
Qed.

(** Someone else's id finds nothing. *)
Lemma Task_findOne_foreign db t B :
  tasks_wf db -> In t (tasks db) -> B <> t_userId t ->
  Task_findOne iLike (where_id_user (t_id t) B) db = None.
Proof.
  intros Hwf Hin HB.
  destruct (Task_findOne iLike (where_id_user (t_id t) B) db) as [x|] eqn:E;
    [|reflexivity].
  apply Task_findOne_Some in E as (Hx & Hid & Hu).
  assert (x = t) by (eapply tasks_wf_id_inj; eauto). subst x. congruence.
Qed.

(** An id that no row has finds nothing. *)
Lemma Task_findOne_absent db id B :
  (forall x, In x (tasks db) -> t_id x <> id) ->
  Task_findOne iLike (where_id_user id B) db = None.
Proof.
  intros Habs.
  destruct (Task_findOne iLike (where_id_user id B) db) as [x|] eqn:E;
    [|reflexivity].
  apply Task_findOne_Some in E as (Hx & Hid & _). now apply Habs in Hx.
Qed.

(** C1.  For a task [t] of user A and another user B, [getTask],
    [updateTask] and [deleteTask] with [t]'s id answer 404 "Task not
    found" and leave the store (hence [t]) as it is; the responses are
    the ones B gets from any store [db0] in which no task has that id. *)
Theorem foreign_task_not_found db t B b db0 :
  tasks_wf db ->
  In t (tasks db) ->
  B <> t_userId t ->
  (forall x, In x (tasks db0) -> t_id x <> t_id t) ->
  (getTask iLike db B (t_id t) = (db, not_found)
   /\ updateTask iLike db B (t_id t) b = (db, not_found)
   /\ deleteTask iLike db B (t_id t) = (db, not_found))
  /\ status not_found = 404
  /\ (snd (getTask iLike db0 B (t_id t)) = snd (getTask iLike db B (t_id t))
      /\ snd (updateTask iLike db0 B (t_id t) b)
         = snd (updateTask iLike db B (t_id t) b)
      /\ snd (deleteTask iLike db0 B (t_id t))
         = snd (deleteTask iLike db B (t_id t))).
Proof.
  intros Hwf Hin HB Habs.
  pose proof (Task_findOne_foreign db t B Hwf Hin HB) as E.
  pose proof (Task_findOne_absent db0 (t_id t) B Habs) as E0.
  unfold getTask, updateTask, deleteTask. rewrite E, E0. simpl.
  repeat split; reflexivity.
Qed.

(** ** Partial update *)

Lemma save_task_other t' ts x :
  t_id x <> t_id t' -> In x (save_task t' ts) <-> In x ts.
Proof.
  intros Hne. unfold save_task. rewrite in_map_iff. split.
  - intros (y & Hy & Hin).
    destruct (t_id y =? t_id t')%Z eqn:E; [now subst|now subst].
  - intros Hin. exists x. split; [|assumption].
    apply Z.eqb_neq in Hne. now rewrite Hne.
Qed.

Lemma save_task_ids t' ts : List.map t_id (save_task t' ts) = List.map t_id ts.
Proof.
  unfold save_task. rewrite List.map_map. apply List.map_ext. intros x.
  destruct (t_id x =? t_id t')%Z eqn:E; [|reflexivity].
  apply Z.eqb_eq in E. now rewrite E.
Qed.

Lemma find_save_task (p : Task -> bool) t t' ts :
  List.find p ts = Some t -> t_id t' = t_id t -> p t' = true ->
  List.find p (save_task t' ts) = Some t'.
Proof.
  intros Hf Hid Hp. induction ts as [|x ts IH]; simpl in *; [discriminate|].
  destruct (p x) eqn:Hx.
  - injection Hf as ->. rewrite Hid, Z.eqb_refl. now rewrite Hp.
  - destruct (t_id x =? t_id t')%Z; [now rewrite Hp|]. rewrite Hx. auto.
Qed.

(** C3.  An update of an owned task answers 200 with the updated row
    [t'] and stores it: in [t'] every member of the body that is
    supplied has the supplied value, every member that is not supplied
    has the value it had; the rows with other ids are as they were. *)
Theorem updateTask_partial db userId id b t :
  Task_findOne iLike (where_id_user id userId) db = Some t ->
  exists t' db',
    updateTask iLike db userId id b
    = (db', {| status := 200; success := true;
               body := BTask (Some "Task updated successfully") t' |})
    /\ Task_findOne iLike (where_id_user id userId) db' = Some t'
    /\ (forall x, t_id x <> id -> In x (tasks db') <-> In x (tasks db))
    /\ (b_title b = None -> t_title t' = t_title t)
    /\ (forall v, b_title b = Some v -> t_title t' = v)
    /\ (b_description b = None -> t_description t' = t_description t)
    /\ (forall v, b_description b = Some v -> t_description t' = Some v)
    /\ (b_completed b = None -> t_completed t' = t_completed t)
    /\ (forall v, b_completed b = Some v -> t_completed t' = v)
    /\ (b_dueDate b = None -> t_dueDate t' = t_dueDate t)
    /\ (forall v, b_dueDate b = Some v -> t_dueDate t' = Some v)
    /\ (b_priority b = None -> t_priority t' = t_priority t)
    /\ (forall v, b_priority b = Some v -> t_priority t' = v)
    /\ (b_tags b = None -> t_tags t' = t_tags t)
    /\ (forall v, b_tags b = Some v -> t_tags t' = v)
    /\ t_id t' = t_id t /\ t_userId t' = t_userId t
    /\ t_createdAt t' = t_createdAt t.
Proof.
  intros Hf. pose proof (Task_findOne_Some _ _ _ _ Hf) as (Hin & Hid & Hu).
  exists (Task_update t b), (set_tasks db (save_task (Task_update t b) (tasks db))).
  split; [unfold updateTask; now rewrite Hf|].
  split.
  { unfold Task_findOne; simpl. eapply find_save_task; eauto.
    apply where_id_user_matches. simpl. auto. }
  split.
  { intros x Hx. simpl. apply save_task_other. simpl. congruence. }
  unfold Task_update; simpl.
  repeat split; try (intros H; rewrite H; reflexivity);
    intros v H; rewrite H; reflexivity.
Qed.

Lemma updateTask_only_completed db userId id t :
  Task_findOne iLike (where_id_user id userId) db = Some t ->
  exists t',
    snd (updateTask iLike db userId id only_completed_true)
    = {| status := 200; success := true;
         body := BTask (Some "Task updated successfully") t' |}
    /\ t_completed t' = true
    /\ t_title t' = t_title t /\ t_description t' = t_description t
    /\ t_dueDate t' = t_dueDate t /\ t_priority t' = t_priority t
    /\ t_tags t' = t_tags t.
Proof.
  intros Hf. exists (Task_update t only_completed_true).
  unfold updateTask. rewrite Hf. simpl. repeat split.
Qed.

(** ** Ordering of the listing *)

Lemma compare_column_comparator c : comparator (compare_column c).
Proof.
  destruct c; split; unfold compare_column.
  - intros a b. now destruct (t_completed a), (t_completed b).
  - intros a b c. now destruct (t_completed a), (t_completed b), (t_completed c).
  - intros a b c. now destruct (t_completed a), (t_completed b), (t_completed c).
  - intros a b.
    destruct (t_dueDate a), (t_dueDate b); try reflexivity. apply Z.compare_antisym.
  - intros a b c.
    destruct (t_dueDate a), (t_dueDate b), (t_dueDate c);
      try discriminate; try reflexivity.
    intros H. apply Z.compare_eq in H. now subst.
  - intros a b c.
    destruct (t_dueDate a), (t_dueDate b), (t_dueDate c);
      try discriminate; try reflexivity.
    rewrite !Z.compare_lt_iff. lia.
  - intros a b. apply Z.compare_antisym.
  - intros a b c H. apply Z.compare_eq in H. now rewrite H.
  - intros a b c. rewrite !Z.compare_lt_iff. lia.
Qed.

Lemma comparator_flip_Gt cmp a b : comparator cmp -> cmp a b = Gt <-> cmp b a = Lt.
Proof.
  intros C. rewrite (cmp_flip _ C b a). now destruct (cmp b a).
Qed.

Lemma comparator_eq_r cmp a b c :
  comparator cmp -> cmp b c = Eq -> cmp a b = cmp a c.
Proof.
  intros C H. rewrite (cmp_flip _ C b a), (cmp_flip _ C c a).
  f_equal. now apply (cmp_eq_l _ C).
Qed.

Lemma directed_comparator d cmp :
  comparator cmp -> comparator (fun a b => directed d (cmp a b)).
Proof.
  intros C. destruct d; simpl; [now destruct C|]. split.
  - intros a b. now rewrite (cmp_flip _ C a b).
  - intros a b c H. f_equal. apply (cmp_eq_l _ C).
    now destruct (cmp a b).
  - intros a b c Hab Hbc.
    assert (cmp b a = Lt) by (apply comparator_flip_Gt; auto; now destruct (cmp a b)).
    assert (cmp c b = Lt) by (apply comparator_flip_Gt; auto; now destruct (cmp b c)).
    assert (cmp c a = Lt) by (eapply (cmp_lt_trans _ C); eauto).
    apply comparator_flip_Gt in H1; auto. now rewrite H1.
Qed.

Lemma lex_comparator c1 c2 :
  comparator c1 -> comparator c2 -> comparator (lex c1 c2).
Proof.
  intros C1 C2. split; unfold lex.
  - intros a b. rewrite (cmp_flip _ C1 a b).
    destruct (c1 a b); simpl; auto. apply (cmp_flip _ C2).
  - intros a b c. destruct (c1 a b) eqn:E; try discriminate.
    intros H. rewrite (cmp_eq_l _ C1 a b c E).
    destruct (c1 b c); auto. now apply (cmp_eq_l _ C2).
  - intros a b c.
    destruct (c1 a b) eqn:Eab; try discriminate;
      destruct (c1 b c) eqn:Ebc; try discriminate; intros Hab Hbc.
    + rewrite (cmp_eq_l _ C1 a b c Eab), Ebc. eapply (cmp_lt_trans _ C2); eauto.
    + now rewrite (cmp_eq_l _ C1 a b c Eab), Ebc.
    + now rewrite <- (comparator_eq_r c1 a b c C1 Ebc), Eab.
    + now rewrite (cmp_lt_trans _ C1 a b c Eab Ebc).
Qed.

Lemma order_compare_comparator order : comparator (order_compare order).
Proof.
  induction order as [|[c d] order IH]; simpl.
  - now split.
  - apply (lex_comparator (fun a b => directed d (compare_column c a b))
             (order_compare order)); [|assumption].
    apply directed_comparator, compare_column_comparator.
Qed.

Lemma order_le_total order : Total (order_le order).
Proof.
  intros a b. unfold order_le.
  rewrite (cmp_flip _ (order_compare_comparator order) a b).
  destruct (order_compare order a b); simpl; auto; now left.
Qed.

Lemma order_le_trans order : Transitive (order_le order).
Proof.
  pose proof (order_compare_comparator order) as C.
  intros a b c. unfold order_le. intros Hab Hbc.
  destruct (order_compare order a b) eqn:Eab; [| |congruence].
  - now rewrite (cmp_eq_l _ C a b c Eab).
  - destruct (order_compare order b c) eqn:Ebc; [| |congruence].
    + now rewrite <- (comparator_eq_r _ a b c C Ebc), Eab.
    + now rewrite (cmp_lt_trans _ C a b c Eab Ebc).
Qed.

(** The rows of [findAndCountAll] are in the requested order, whatever
    the limit and the offset. *)
Lemma Task_findAndCountAll_sorted w limit offset order db :
  StronglySorted (order_le order)
    (snd (Task_findAndCountAll iLike w limit offset order db)).
Proof.
  unfold Task_findAndCountAll; simpl.
  pose proof (order_le_total order) as HT.
  pose proof (order_le_trans order) as HTr.
  set (sorted := merge_sort (order_le order) _).
  assert (Hs : StronglySorted (order_le order) sorted)
    by apply (StronglySorted_merge_sort (order_le order)).
  rewrite <- (take_drop (Z.to_nat offset) sorted) in Hs.
  apply StronglySorted_app_1_r in Hs.
  rewrite <- (take_drop (Z.to_nat limit) (drop _ sorted)) in Hs.
  now apply StronglySorted_app_1_l in Hs.
Qed.

Lemma StronglySorted_lookup (R : relation Task) (l : list Task) i j a b :
  StronglySorted R l -> (i < j)%nat ->
  l !! i = Some a -> l !! j = Some b -> R a b.
Proof.
  intros Hs. revert i j. induction Hs as [|x l Hs IH Hall]; intros i j Hij Hi Hj.
  - discriminate.
  - destruct j as [|j]; [lia|]. simpl in Hj. destruct i as [|i]; simpl in Hi.
    + injection Hi as ->. rewrite Forall_forall in Hall.
      apply Hall. eapply list_elem_of_lookup_2; eauto.
    + apply (IH i j); [lia | assumption | assumption].
Qed.

(** What the listing order says about two rows. *)
Lemma listing_order_le a b :
  order_le listing_order a b ->
  (t_completed a = true -> t_completed b = true)
  /\ (t_completed a = t_completed b ->
      match t_dueDate a, t_dueDate b with
      | Some x, Some y => (x <= y)%Z
      | None, Some _ => False
      | _, None => True
      end)
  /\ (t_completed a = t_completed b -> t_dueDate a = t_dueDate b ->
      (t_createdAt b <= t_createdAt a)%Z).
Proof.
  unfold order_le, listing_order; simpl. intros H. repeat split.
  - destruct (t_completed a), (t_completed b); auto.
  - intros E. rewrite E in H. destruct (t_completed b);
      destruct (t_dueDate a), (t_dueDate b); auto;
      destruct (Z.compare_spec z z0); simpl in H; try lia; congruence.
  - intros E E'. rewrite E, E' in H.
    destruct (t_completed b); destruct (t_dueDate b); simpl in H;
      rewrite ?Z.compare_refl in H; simpl in H;
      destruct (Z.compare_spec (t_createdAt a) (t_createdAt b));
      simpl in H; try lia; congruence.
Qed.

(** C6.  In the rows of a listing, for any two positions [i < j] with
    rows [a] and [b]: [a] is not completed when [b] is incomplete; if
    both have the same completion state, the due date of [a] is at most
    that of [b], a row without due date coming after the rows with one;
    if they also have the same due date, [a] was created no earlier
    than [b].  The order is the same for every query. *)
Theorem getTasks_order db userId q :
  exists rows pg,
    getTasks iLike db userId q
    = (db, {| status := 200; success := true; body := BTasks rows pg |})
    /\ StronglySorted (order_le listing_order) rows
    /\ forall (i j : nat) a b,
         (i < j)%nat -> rows !! i = Some a -> rows !! j = Some b ->
         ~ (t_completed a = true /\ t_completed b = false)
         /\ (t_completed a = t_completed b ->
             match t_dueDate a, t_dueDate b with
             | Some x, Some y => (x <= y)%Z
             | None, Some _ => False
             | _, None => True
             end)
         /\ (t_completed a = t_completed b -> t_dueDate a = t_dueDate b ->
             (t_createdAt b <= t_createdAt a)%Z).
Proof.
  unfold getTasks.
  set (page := default 1%Z (q_page q)). set (limit := default 10%Z (q_limit q)).
  set (offset := JS.parseInt_number _).
  pose proof (Task_findAndCountAll_sorted (listing_where userId q)
                (JS.parseInt_string limit) offset listing_order db) as Hs.
  destruct (Task_findAndCountAll _ _ _ _ _ _) as [count rows]. simpl in Hs.
  eexists rows, _. split; [reflexivity|]. split; [assumption|].
  intros i j a b Hij Hi Hj.
  pose proof (StronglySorted_lookup _ _ _ _ _ _ Hs Hij Hi Hj) as Hle.
  apply listing_order_le in Hle as (H1 & H2 & H3).
  repeat split; auto. intros [Ha Hb]. apply H1 in Ha. congruence.
Qed.


(** ** Pagination *)

(** Integers below [2 ^ 53] are numbers. *)
Lemma JS_toNumber_exact z : (0 <= z < 2 ^ 53)%Z -> JS.toNumber z = z.
Proof.
  intros [H0 H1]. unfold JS.toNumber, JS.round53.
  destruct (Z.ltb_spec z 0); [lia|].
  destruct (Z.ltb_spec z (2 ^ 53)); [reflexivity|lia].
Qed.

Lemma JS_parseInt_number_exact v : (v < 10 ^ 21)%Z -> JS.parseInt_number v = v.
Proof.
  intros H. unfold JS.parseInt_number.
  destruct (Z.ltb_spec v (10 ^ 21)); [reflexivity|lia].
Qed.

(** The exponent [ceil_div] scales by is not negative, and it
    normalises the quotient to at least [2 ^ 52]. *)
Lemma ceil_div_scale a b :
  (0 < a < 2 ^ 53)%Z -> (0 < b)%Z ->
  let k0 := (52 + Z.log2 b - Z.log2 a)%Z in
  let k := if (a * 2 ^ k0 <? 2 ^ 52 * b)%Z then (k0 + 1)%Z else k0 in
  (0 <= k0)%Z /\ (0 <= k)%Z /\ (2 ^ 52 * b <= a * 2 ^ k)%Z.
Proof.
  intros Ha Hb k0 k.
  pose proof (Z.log2_spec a ltac:(lia)) as [La1 La2].
  pose proof (Z.log2_spec b ltac:(lia)) as [Lb1 Lb2].
  pose proof (Z.log2_nonneg a) as Na. pose proof (Z.log2_nonneg b) as Nb.
  assert (Hla : (Z.log2 a < 53)%Z).
  { apply Z.log2_lt_pow2; lia. }
  assert (Hk0 : (0 <= k0)%Z) by (unfold k0; lia).
  split; [assumption|]. subst k.
  destruct (Z.ltb_spec (a * 2 ^ k0) (2 ^ 52 * b)) as [Hlt|Hge].
  - split; [lia|].
    assert (E : (2 ^ Z.log2 a * 2 ^ (k0 + 1) = 2 ^ 52 * (2 ^ Z.succ (Z.log2 b)))%Z).
    { rewrite <- !Z.pow_add_r by lia. f_equal. unfold k0. lia. }
    assert (0 < 2 ^ (k0 + 1))%Z by (apply Z.pow_pos_nonneg; lia).
    nia.
  - split; [lia|assumption].
Qed.

(** On counts below [2 ^ 53] the rounding of the quotient does not
    show: [Math.ceil(count / limit)] is the exact ceiling. *)
Lemma JS_ceil_div_exact a b :
  (0 <= a < 2 ^ 53)%Z -> (0 < b)%Z ->
  JS.ceil_div a b = ((a + b - 1) / b)%Z.
Proof.
  intros Ha Hb. unfold JS.ceil_div.
  destruct (Z.eqb_spec a 0) as [->|Hne].
  { symmetry. apply Z.div_small. lia. }
  pose proof (ceil_div_scale a b ltac:(lia) Hb) as (Hk0 & Hk & Hnorm).
  cbv zeta in Hk, Hnorm.
  set (k0 := (52 + Z.log2 b - Z.log2 a)%Z) in *.
  destruct (Z.leb_spec 0 k0) as [_|]; [|lia].
  set (k := if (a * 2 ^ k0 <? 2 ^ 52 * b)%Z then (k0 + 1)%Z else k0) in *.
  destruct (Z.leb_spec 0 k) as [_|]; [|lia].
  set (P := (2 ^ k)%Z) in *.
  assert (HP : (0 < P)%Z) by (apply Z.pow_pos_nonneg; lia).
  set (c := ((a + b - 1) / b)%Z).
  assert (Hc : ((c - 1) * b < a <= c * b)%Z).
  { pose proof (Z.div_mod (a + b - 1) b ltac:(lia)) as E.
    pose proof (Z.mod_pos_bound (a + b - 1) b Hb). fold c in E. nia. }
  pose proof (Z.div_mod (a * P) b ltac:(lia)) as Eq.
  pose proof (Z.mod_pos_bound (a * P) b Hb) as Hr.
  set (q := (a * P / b)%Z) in *. set (r := ((a * P) mod b)%Z) in *.
  assert (Hq1 : ((c - 1) * P <= q)%Z) by nia.
  assert (Hq2 : (q <= c * P)%Z) by nia.
  set (m := if (b <? 2 * r)%Z || ((2 * r =? b)%Z && Z.odd q)
            then (q + 1)%Z else q).
  assert (Hm : ((c - 1) * P < m <= c * P)%Z).
  { subst m. destruct (Z.eq_dec q (c * P)) as [E1|N1].
    - assert (r = 0)%Z by nia.
      destruct (Z.ltb_spec b (2 * r)); [lia|].
      destruct (Z.eqb_spec (2 * r) b); [lia|]. simpl. nia.
    - destruct (Z.eq_dec q ((c - 1) * P)) as [E2|N2].
      + assert (P <= r)%Z by nia.
        assert (b < 2 * P)%Z by nia.
        destruct (Z.ltb_spec b (2 * r)); [|lia]. simpl. lia.
      + destruct ((b <? 2 * r)%Z || ((2 * r =? b)%Z && Z.odd q)); lia. }
  symmetry. apply Z.div_unique with (r := (m + P - 1 - c * P)%Z); nia.
Qed.

Lemma merge_sort_length order (l : list Task) :
  length (merge_sort (order_le order) l) = length l.
Proof. apply Permutation_length, merge_sort_Permutation. Qed.

(** Pagination where the arithmetic of the handler is exact: for a
    page and a limit with [(page - 1) * limit] below [2 ^ 53], the
    listing reports the ceiling of [N / limit] as the number of pages
    and returns the slice of the ordered matching rows at offset
    [(page - 1) * limit], at most [limit] rows, none beyond the range. *)
Lemma getTasks_pagination_exact db userId q page L :
  q_page q = Some page -> q_limit q = Some L ->
  (1 <= page)%Z -> (1 <= L <= 100)%Z ->
  (page < 2 ^ 53)%Z -> ((page - 1) * L < 2 ^ 53)%Z ->
  let matching :=
    List.filter (where_matches iLike (listing_where userId q)) (tasks db) in
  let N := Z.of_nat (length matching) in
  (N < 2 ^ 53)%Z ->
  exists rows,
    getTasks iLike db userId q
    = (db, {| status := 200; success := true;
              body := BTasks rows
                {| pg_total := N; pg_page := page; pg_limit := L;
                   pg_totalPages := ((N + L - 1) / L)%Z |} |})
    /\ rows = take (Z.to_nat L)
                (drop (Z.to_nat ((page - 1) * L))
                   (merge_sort (order_le listing_order) matching))
    /\ (Z.of_nat (length rows) <= L)%Z
    /\ ((N <= (page - 1) * L)%Z -> rows = []).
Proof.
  intros Hp Hl Hpage HL Hpb Hoff matching N HN.
  unfold getTasks. rewrite Hp, Hl. simpl default.
  unfold JS.sub, JS.mul, JS.parseInt_string.
  rewrite (JS_toNumber_exact page) by lia.
  rewrite (JS_toNumber_exact L) by lia.
  rewrite (JS_toNumber_exact (page - 1)) by lia.
  rewrite (JS_toNumber_exact ((page - 1) * L)) by nia.
  rewrite JS_parseInt_number_exact by (change (10 ^ 21)%Z with 1000000000000000000000%Z;
    change (2 ^ 53)%Z with 9007199254740992%Z in Hoff; lia).
  unfold Task_findAndCountAll. fold matching. fold N.
  rewrite JS_ceil_div_exact by lia.
  eexists. split; [reflexivity|]. split; [reflexivity|]. split.
  - rewrite length_take. lia.
  - intros Hbeyond. rewrite drop_ge; [now destruct (Z.to_nat L)|].
    rewrite merge_sort_length. unfold N in Hbeyond. lia.
Qed.

(** C10.  An omitted [page] is page 1 and an omitted [limit] is limit
    10: the listing is the one of the request with the value supplied.
    With both omitted the rows are the first rows of the ordered
    matching rows, at most 10, and the pagination object reports page 1
    and limit 10. *)
Theorem getTasks_defaults db userId q :
  (q_page q = None ->
   getTasks iLike db userId q = getTasks iLike db userId (set_page q 1))
  /\ (q_limit q = None ->
      getTasks iLike db userId q = getTasks iLike db userId (set_limit q 10))
  /\ (q_page q = None -> q_limit q = None ->
      exists rows pg,
        getTasks iLike db userId q
        = (db, {| status := 200; success := true; body := BTasks rows pg |})
        /\ rows = take 10
                    (merge_sort (order_le listing_order)
                       (List.filter
                          (where_matches iLike (listing_where userId q))
                          (tasks db)))
        /\ (length rows <= 10)%nat
        /\ pg_page pg = 1%Z /\ pg_limit pg = 10%Z).
Proof.
  split; [|split].
  - intros H. unfold getTasks, set_page, listing_where; simpl. now rewrite H.
  - intros H. unfold getTasks, set_limit, listing_where; simpl. now rewrite H.
  - intros Hp Hl. unfold getTasks. rewrite Hp, Hl. simpl default.
    change (JS.parseInt_number (JS.mul (JS.sub (JS.toNumber 1) 1) (JS.toNumber 10)))
      with 0%Z.
    change (JS.parseInt_string 10) with 10%Z.
    change (JS.parseInt_string 1) with 1%Z.
    unfold Task_findAndCountAll.
    eexists _, _. split; [reflexivity|]. split; [reflexivity|].
    split; [|split; reflexivity].
    rewrite length_take. apply Nat.le_min_l.
Qed.

(** C7, at a page far beyond the range.  The user has two tasks and
    asks for page [10 ^ 21 + 1] with limit 1.  The offset is the number
    [10 ^ 21], whose string is in exponent form, so [parseInt] makes
    it 1: the listing returns the row at offset 1 (the older task),
    with total 2 and 2 pages. *)
Theorem getTasks_far_page_not_empty :
  let q := {| q_completed := None; q_priority := None;
              q_page := Some (10 ^ 21 + 1)%Z; q_limit := Some 1%Z;
              q_search := None |} in
  (2 <= (10 ^ 21 + 1 - 1) * 1)%Z
  /\ exists t pg,
       getTasks iLike two_tasks_db 1 q
       = (two_tasks_db,
          {| status := 200; success := true; body := BTasks [t] pg |})
       /\ t_id t = 1%Z
       /\ pg_total pg = 2%Z /\ pg_totalPages pg = 2%Z
       /\ pg_page pg = (10 ^ 21)%Z /\ pg_limit pg = 1%Z.
Proof.
  split; [vm_compute; discriminate|].
  eexists _, _. split; [vm_compute; reflexivity|].
  repeat split; vm_compute; reflexivity.
Qed.

(** ** Statistics *)

Lemma count_matching_split (p : Task -> bool) (c : Task -> bool) (l : list Task) :
  length (List.filter p l)
  = (length (List.filter (fun t => p t && Bool.eqb (c t) true) l)
     + length (List.filter (fun t => p t && Bool.eqb (c t) false) l))%nat.
Proof.
  induction l as [|x l IH]; simpl; [reflexivity|].
  destruct (p x), (c x); simpl; lia.
Qed.

Lemma Priority_eqb_eq p q : Priority_eqb p q = true <-> p = q.
Proof. unfold Priority_eqb. apply bool_decide_eq_true. Qed.

Lemma priority_key_inj p q : priority_key p = priority_key q -> p = q.
Proof. destruct p, q; simpl; intros H; congruence. Qed.

Lemma group_count_count_into p q g :
  group_count p (count_into q g)
  = (group_count p g + if Priority_eqb q p then 1 else 0)%Z.
Proof.
  unfold group_count. induction g as [|[p' n] g IH]; simpl.
  - destruct (Priority_eqb q p); reflexivity.
  - destruct (Priority_eqb p' q) eqn:E1; simpl.
    + apply Priority_eqb_eq in E1. subst p'.
      destruct (Priority_eqb q p); simpl; lia.
    + destruct (Priority_eqb p' p) eqn:E2; simpl; [|apply IH].
      apply Priority_eqb_eq in E2. subst p'.
      destruct (Priority_eqb q p) eqn:E3; [|lia].
      apply Priority_eqb_eq in E3. subst q.
      assert (Priority_eqb p p = true) by now apply Priority_eqb_eq.
      congruence.
Qed.

Lemma groups_total_count_into q g :
  groups_total (count_into q g) = (groups_total g + 1)%Z.
Proof.
  unfold groups_total. rewrite !group_count_count_into.
  destruct q; simpl; unfold Priority_eqb; simpl; lia.
Qed.

Lemma groups_total_fold (l : list Task) g :
  groups_total (fold_left (fun groups t => count_into (t_priority t) groups) l g)
  = (groups_total g + Z.of_nat (length l))%Z.
Proof.
  revert g. induction l as [|t l IH]; intros g; simpl; [lia|].
  rewrite IH, groups_total_count_into. lia.
Qed.

Lemma count_into_keys q g p :
  In p (List.map fst (count_into q g)) <-> p = q \/ In p (List.map fst g).
Proof.
  induction g as [|[p' n] g IH]; simpl; [intuition auto|].
  destruct (Priority_eqb p' q) eqn:E; simpl.
  - apply Priority_eqb_eq in E. subst p'. intuition auto.
  - rewrite IH. intuition auto.
Qed.

Lemma count_into_ok q g : groups_ok g -> groups_ok (count_into q g).
Proof.
  unfold groups_ok. induction g as [|[p' n] g IH]; simpl; intros [Hnd Hpos].
  - split; [repeat constructor; auto | repeat constructor; simpl; lia].
  - apply List.NoDup_cons_iff in Hnd as [Hp' Hnd].
    apply Forall_cons in Hpos as [Hn Hpos]. simpl in Hn.
    destruct (Priority_eqb p' q) eqn:E; simpl.
    + split; [now constructor|]. constructor; [simpl; lia|assumption].
    + destruct (IH (conj Hnd Hpos)) as [IH1 IH2]. split.
      * constructor; [|assumption]. rewrite count_into_keys.
        intros [->|H]; [|contradiction].
        assert (Priority_eqb q q = true) by now apply Priority_eqb_eq.
        congruence.
      * constructor; assumption.
Qed.

Lemma Task_countByPriority_ok w db :
  groups_ok (Task_countByPriority iLike w db).
Proof.
  unfold Task_countByPriority.
  generalize (List.filter (where_matches iLike w) (tasks db)) as l.
  assert (H0 : groups_ok []) by (split; constructor).
  revert H0. generalize (@nil (Priority * Z)) as g.
  intros g H0 l. revert g H0.
  induction l as [|t l IH]; intros g H0; simpl; [assumption|].
  apply IH, count_into_ok, H0.
Qed.

Lemma group_count_absent p (g : list (Priority * Z)) :
  ~ In p (List.map fst g) -> List.find (fun x => Priority_eqb x.1 p) g = None.
Proof.
  induction g as [|[p' n] g IH]; simpl; [reflexivity|]. intros H.
  destruct (Priority_eqb p' p) eqn:E.
  - apply Priority_eqb_eq in E. tauto.
  - apply IH. tauto.
Qed.

(** The object the reduce builds has, under the key of a priority, the
    count of its group. *)
Lemma byPriority_lookup (g : list (Priority * Z)) (m : gmap string Z) p :
  List.NoDup (List.map fst g) ->
  fold_left (fun (acc : gmap string Z) item => <[priority_key item.1 := item.2]> acc)
    g m !! priority_key p
  = match List.find (fun x => Priority_eqb x.1 p) g with
    | Some x => Some x.2
    | None => m !! priority_key p
    end.
Proof.
  revert m. induction g as [|[p' n] g IH]; intros m Hnd; simpl; [reflexivity|].
  apply List.NoDup_cons_iff in Hnd as [Hp' Hnd]. rewrite (IH _ Hnd).
  destruct (Priority_eqb p' p) eqn:E.
  - apply Priority_eqb_eq in E. subst p'.
    rewrite (group_count_absent p g Hp'). simpl. apply lookup_insert_eq.
  - destruct (List.find _ g); [reflexivity|]. simpl.
    apply lookup_insert_ne. intros H. apply priority_key_inj in H.
    subst p'. assert (Priority_eqb p p = true) by now apply Priority_eqb_eq.
    congruence.
Qed.

(** Its keys are keys of priorities, its values are positive. *)
Lemma byPriority_members (g : list (Priority * Z)) (m : gmap string Z) :
  Forall (fun x => (0 < x.2)%Z) g ->
  (forall k v, m !! k = Some v -> (exists p, k = priority_key p) /\ (0 < v)%Z) ->
  forall k v,
    fold_left (fun (acc : gmap string Z) item => <[priority_key item.1 := item.2]> acc)
      g m !! k = Some v ->
    (exists p, k = priority_key p) /\ (0 < v)%Z.
Proof.
  revert m. induction g as [|[p' n] g IH]; intros m Hpos Hm k v; simpl; [apply Hm|].
  apply Forall_cons in Hpos as [Hn Hpos]. simpl in Hn.
  apply IH; [assumption|]. intros k' v'. rewrite lookup_insert.
  destruct (decide (priority_key p' = k')) as [<-|Hne].
  - intros [= <-]. split; [now exists p'|assumption].
  - apply Hm.
Qed.

(** The sum of the values of an object whose keys are keys of
    priorities is the sum over the three priorities, a missing key
    counting as zero. *)
Lemma sum_values_remove k (m : gmap string Z) :
  sum_values m = (default 0%Z (m !! k) + sum_values (delete k m))%Z.
Proof.
  unfold sum_values. destruct (m !! k) as [x|] eqn:E; simpl.
  - apply (map_fold_delete_L (fun (_ : string) (v acc : Z) => (v + acc)%Z));
      [intros; lia | assumption].
  - now rewrite delete_id.
Qed.

Lemma sum_values_three (m : gmap string Z) :
  (forall k v, m !! k = Some v -> exists p, k = priority_key p) ->
  sum_values m = (count_of m low + count_of m medium + count_of m high)%Z.
Proof.
  intros Hk. unfold count_of; simpl.
  rewrite (sum_values_remove "low" m).
  rewrite (sum_values_remove "medium" (delete "low" m)).
  rewrite (sum_values_remove "high" (delete "medium" (delete "low" m))).
  rewrite !lookup_delete_ne by discriminate.
  assert (E : delete "high" (delete "medium" (delete "low" m)) = (∅ : gmap string Z)).
  { apply map_eq. intros k. rewrite lookup_empty.
    destruct (delete "high" (delete "medium" (delete "low" m)) !! k) as [v|] eqn:E;
      [|reflexivity].
    apply lookup_delete_Some in E as [N1 E].
    apply lookup_delete_Some in E as [N2 E].
    apply lookup_delete_Some in E as [N3 E].
    destruct (Hk k v E) as [[] ->]; simpl in *; congruence. }
  rewrite E. unfold sum_values. rewrite map_fold_empty. lia.
Qed.

(** C5.  The statistics of a user: the total is the completed count
    plus the pending count; the values of the priority mapping, a
    missing priority counting as zero, add up to the total, and so do
    the values that are present; every key of the mapping is a priority
    and every value in it is positive. *)
Theorem getStatistics_counts db userId :
  exists total completed pending byPriority,
    getStatistics iLike db userId
    = (db, {| status := 200; success := true;
              body := BStatistics total completed pending byPriority |})
    /\ total = (completed + pending)%Z
    /\ (count_of byPriority low + count_of byPriority medium
        + count_of byPriority high)%Z = total
    /\ sum_values byPriority = total
    /\ (forall k v, byPriority !! k = Some v ->
          (exists p, k = priority_key p) /\ (0 < v)%Z)
    /\ total = Z.of_nat (length (List.filter
                 (fun t => (t_userId t =? userId)%Z) (tasks db))).
Proof.
  unfold getStatistics. eexists _, _, _, _. split; [reflexivity|].
  pose proof (Task_countByPriority_ok (where_user userId) db) as [Hnd Hpos].
  set (g := Task_countByPriority iLike (where_user userId) db) in *.
  set (m := fold_left _ g ∅).
  assert (Hmem : forall k v, m !! k = Some v ->
            (exists p, k = priority_key p) /\ (0 < v)%Z).
  { apply byPriority_members; [assumption|]. intros k v. now rewrite lookup_empty. }
  assert (Hcount : forall p, count_of m p = group_count p g).
  { intros p. unfold count_of, group_count, m.
    rewrite (byPriority_lookup g ∅ p Hnd), lookup_empty.
    now destruct (List.find _ g). }
  assert (Hthree : (count_of m low + count_of m medium + count_of m high)%Z
                   = Task_count iLike (where_user userId) db).
  { rewrite !Hcount. change (groups_total g = Task_count iLike (where_user userId) db).
    unfold g, Task_countByPriority. rewrite groups_total_fold.
    unfold Task_count. reflexivity. }
  split; [|split; [|split; [|split]]].
  - unfold Task_count.
    rewrite (count_matching_split (where_matches iLike (where_user userId)) t_completed).
    rewrite Nat2Z.inj_add. f_equal; do 2 f_equal;
      apply List.filter_ext; intros t; unfold where_matches; simpl;
      now rewrite !andb_true_r.
  - assumption.
  - rewrite sum_values_three; [assumption|]. intros k v H. now apply (Hmem k v).
  - assumption.
  - unfold Task_count. do 2 f_equal. apply List.filter_ext. intros t.
    apply where_user_matches.
Qed.

End TaskProperties.

(** ** Accounts *)

Section AuthProperties.

Variable hashPassword : string -> string.
Variable validatePassword : string -> string -> bool.
Variable jwt_sign : JObj -> string -> string -> Z -> string.
Variable jwt_verify : string -> string -> Z -> Verified.

Lemma User_findOne_email_Some email db u :
  User_findOne_email email db = Some u -> In u (users db) /\ u_email u = email.
Proof.
  unfold User_findOne_email. intros H. apply find_some in H as [Hin He].
  split; [assumption|]. now apply String.eqb_eq.
Qed.

Lemma User_findOne_email_None email db :
  User_findOne_email email db = None
  <-> forall u, In u (users db) -> u_email u <> email.
Proof.
  unfold User_findOne_email. split.
  - intros H u Hin He. pose proof (find_none _ _ H u Hin) as Hn. simpl in Hn.
    apply String.eqb_neq in Hn. contradiction.
  - intros H. destruct (List.find _ (users db)) as [u|] eqn:E; [|reflexivity].
    apply find_some in E as [Hin He]. apply String.eqb_eq in He.
    now apply H in Hin.
Qed.

Lemma find_save_user (p : User -> bool) u u' us :
  List.find p us = Some u -> u_id u' = u_id u -> p u' = true ->
  List.find p (save_user u' us) = Some u'.
Proof.
  intros Hf Hid Hp. induction us as [|x us IH]; simpl in *; [discriminate|].
  destruct (p x) eqn:Hx.
  - injection Hf as ->. rewrite Hid, Z.eqb_refl. now rewrite Hp.
  - destruct (u_id x =? u_id u')%Z; [now rewrite Hp|]. rewrite Hx. auto.
Qed.

(** C4.  The outcomes of a login.  No user with the email: 401
    "Invalid credentials", store unchanged.  For the user [u] found by
    the email: not active, 403 "User inactive"; active and the password
    does not match, 401 "Invalid credentials"; active and the password
    matches, 200 with the object of exactly the id, the name and the
    email of [u] and the token signed for that object with the secret
    and the lifetime of the environment, and in the new store [u] has
    the time of the login as lastAccess. *)
Theorem login_outcomes db env now email password :
  ((forall u, In u (users db) -> u_email u <> email) ->
   login validatePassword jwt_sign db env now email password
   = (db, {| status := 401; success := false;
             body := BMessage "Invalid credentials" |}))
  /\ forall u, User_findOne_email email db = Some u ->
     (u_active u = false ->
      login validatePassword jwt_sign db env now email password
      = (db, {| status := 403; success := false;
                body := BMessage "User inactive. Contact administrator" |}))
     /\ (u_active u = true ->
         validatePassword (u_password u) password = false ->
         login validatePassword jwt_sign db env now email password
         = (db, {| status := 401; success := false;
                   body := BMessage "Invalid credentials" |}))
     /\ (u_active u = true ->
         validatePassword (u_password u) password = true ->
         let obj : JObj :=
           <["id" := JNum (u_id u)]>
           (<["name" := JStr (u_name u)]>
           (<["email" := JStr (u_email u)]> ∅)) in
         exists db',
           login validatePassword jwt_sign db env now email password
           = (db', {| status := 200; success := true;
                      body := BUserToken "Session started successfully" obj
                                (jwt_sign obj (JWT_SECRET env) (JWT_EXPIRE env)
                                   now) |})
           /\ obj !! "id" = Some (JNum (u_id u))
           /\ obj !! "name" = Some (JStr (u_name u))
           /\ obj !! "email" = Some (JStr (u_email u))
           /\ (forall k, k <> "id" -> k <> "name" -> k <> "email" ->
                 obj !! k = None)
           /\ User_findOne_email email db'
              = Some {| u_id := u_id u; u_name := u_name u;
                        u_email := u_email u; u_password := u_password u;
                        u_active := u_active u; u_lastAccess := Some now |}
           /\ tasks db' = tasks db).
Proof.
  split.
  - intros H. apply User_findOne_email_None in H. unfold login. now rewrite H.
  - intros u Hu. unfold login. rewrite Hu. split; [|split].
    + intros Ha. now rewrite Ha.
    + intros Ha Hv. now rewrite Ha, Hv.
    + intros Ha Hv. rewrite Ha, Hv. simpl. eexists.
      split; [reflexivity|].
      split; [reflexivity|]. split; [reflexivity|]. split; [reflexivity|].
      split.
      { intros k H1 H2 H3.
        rewrite !lookup_insert_ne by congruence. apply lookup_empty. }
      split; [|reflexivity].
      unfold User_findOne_email; simpl. eapply find_save_user; eauto.
      simpl. apply User_findOne_email_Some in Hu as [_ ->]. apply String.eqb_refl.
Qed.

(** C9.  For an inactive user every login answers 403 "User
    inactive", whatever the password and whether or not it matches,
    and the store, with the user's lastAccess, is as before. *)
Theorem login_inactive db env now email u :
  User_findOne_email email db = Some u ->
  u_active u = false ->
  forall password,
    login validatePassword jwt_sign db env now email password
    = (db, {| status := 403; success := false;
              body := BMessage "User inactive. Contact administrator" |})
    /\ status (snd (login validatePassword jwt_sign db env now email password))
       <> 401%Z
    /\ User_findOne_email email
         (fst (login validatePassword jwt_sign db env now email password))
       = Some u.
Proof.
  intros Hu Ha password. unfold login. rewrite Hu, Ha. simpl.
  repeat split; [discriminate|assumption].
Qed.

Lemma find_app_new {A} (p : A -> bool) (l : list A) (x : A) :
  List.find p l = None -> p x = true -> List.find p (l ++ [x]) = Some x.
Proof.
  induction l as [|y l IH]; simpl; intros Hn Hx; [now rewrite Hx|].
  destruct (p y); [discriminate|auto].
Qed.


(** ** The password column and the responses *)

Lemma find_map_same {A} (p : A -> bool) (f : A -> A) (l : list A) :
  (forall x, p (f x) = p x) ->
  List.find p (List.map f l) = f <$> List.find p l.
Proof.
  intros H. induction l as [|x l IH]; simpl; [reflexivity|].
  rewrite H. now destruct (p x).
Qed.

Lemma exclude_password_with_password h u :
  delete "password" (User_toJSON (with_password h u))
  = delete "password" (User_toJSON u).
Proof.
  apply map_eq. intros k. destruct (decide (k = "password")) as [->|Hk].
  - now rewrite !lookup_delete_eq.
  - rewrite !lookup_delete_ne by congruence.
    unfold User_toJSON, with_password; simpl.
    rewrite !lookup_insert. repeat case_decide; congruence.
Qed.

Lemma exclude_password_lookup u :
  delete "password" (User_toJSON u) !! "password" = None.
Proof. apply lookup_delete_eq. Qed.

Lemma set_password_cond_id uid h u :
  u_id (set_password_row uid h u) = u_id u.
Proof. unfold set_password_row. now destruct (u_id u =? uid)%Z. Qed.

Lemma set_password_cond_email uid h u :
  u_email (set_password_row uid h u) = u_email u.
Proof. unfold set_password_row. now destruct (u_id u =? uid)%Z. Qed.

Lemma exclude_password_set_password_row uid h u :
  delete "password" (User_toJSON (set_password_row uid h u))
  = delete "password" (User_toJSON u).
Proof.
  unfold set_password_row. destruct (u_id u =? uid)%Z; [|reflexivity].
  apply exclude_password_with_password.
Qed.

Lemma User_findOne_email_set_password uid h email db :
  User_findOne_email email (set_password uid h db)
  = set_password_row uid h <$> User_findOne_email email db.
Proof.
  unfold User_findOne_email, set_password; simpl. apply find_map_same.
  intros u. now rewrite set_password_cond_email.
Qed.

Lemma User_findByPk_set_password uid h id db :
  User_findByPk_exclude_password id (set_password uid h db)
  = User_findByPk_exclude_password id db.
Proof.
  unfold User_findByPk_exclude_password, set_password; simpl.
  rewrite find_map_same by (intros u; now rewrite set_password_cond_id).
  destruct (List.find _ (users db)); simpl; [|reflexivity].
  now rewrite exclude_password_set_password_row.
Qed.

Lemma User_update_name_set_password uid h name id us :
  User_update_name name id (List.map (set_password_row uid h) us)
  = List.map (set_password_row uid h) (User_update_name name id us).
Proof.
  unfold User_update_name. rewrite !List.map_map. apply List.map_ext.
  intros u. rewrite set_password_cond_id.
  unfold set_password_row. destruct (u_id u =? id)%Z; simpl; [|reflexivity].
  now destruct (u_id u =? uid)%Z.
Qed.

(** The user of a protected request has no password member. *)
Lemma protectRoute_no_password db env now authorization u :
  protectRoute jwt_verify db env now authorization = Next u ->
  u !! "password" = None.
Proof.
  unfold protectRoute, unauthorized.
  destruct authorization as [h|]; [|discriminate].
  destruct (negb (String.prefix "Bearer " h)); [discriminate|].
  destruct (match split_space_1 h with
            | Some token => verificarToken jwt_verify env now token
            | None => JsonWebTokenError
            end) as [payload| | |]; try discriminate.
  destruct (payload !! "id") as [[| |id|]|]; try discriminate.
  unfold User_findByPk_exclude_password.
  destruct (List.find _ (users db)) as [x|]; simpl; [|discriminate].
  intros [= <-]. apply exclude_password_lookup.
Qed.

(** C2, as amended.  No user object of a response has a password
    member: not the one of register, login, profile behind the auth
    middleware, updateProfile, nor the user the middleware attaches.
    The response of register is the same for every password sent.  If
    two stores differ only in the stored hash of the user with id
    [uid], then register, profile, updateProfile and the middleware
    answer the same on both, and so does login whenever the password
    sent matches both hashes or neither. *)
Theorem password_not_exposed db env now uid h :
  let db' := set_password uid h db in
  (* no password member *)
  (forall name email password obj,
     response_user (snd (register hashPassword jwt_sign db env now name email password))
     = Some obj -> obj !! "password" = None)
  /\ (forall email password obj,
        response_user (snd (login validatePassword jwt_sign db env now email password))
        = Some obj -> obj !! "password" = None)
  /\ (forall authorization u,
        protectRoute jwt_verify db env now authorization = Next u ->
        u !! "password" = None
        /\ response_user (snd (profile db u)) = Some u)
  /\ (forall reqUser name obj,
        response_user (snd (updateProfile db reqUser name)) = Some obj ->
        obj !! "password" = None)
  (* the raw password is not in the response *)
  /\ (forall name email p1 p2,
        snd (register hashPassword jwt_sign db env now name email p1)
        = snd (register hashPassword jwt_sign db env now name email p2))
  (* the stored hash does not show *)
  /\ (forall name email password,
        snd (register hashPassword jwt_sign db' env now name email password)
        = snd (register hashPassword jwt_sign db env now name email password))
  /\ (forall reqUser, snd (profile db' reqUser) = snd (profile db reqUser))
  /\ (forall reqUser name,
        snd (updateProfile db' reqUser name) = snd (updateProfile db reqUser name))
  /\ (forall authorization,
        protectRoute jwt_verify db' env now authorization
        = protectRoute jwt_verify db env now authorization)
  /\ (forall email password,
        (forall u, User_findOne_email email db = Some u -> u_id u = uid ->
           validatePassword h password
           = validatePassword (u_password u) password) ->
        snd (login validatePassword jwt_sign db' env now email password)
        = snd (login validatePassword jwt_sign db env now email password)).
Proof.
  intros db'. repeat apply conj.
  - intros name email password obj. unfold register.
    destruct (User_findOne_email email db); simpl; [discriminate|].
    intros [= <-]. reflexivity.
  - intros email password obj. unfold login.
    destruct (User_findOne_email email db) as [u|]; simpl; [|discriminate].
    destruct (negb (u_active u)); simpl; [discriminate|].
    destruct (negb (validatePassword (u_password u) password)); simpl;
      [discriminate|].
    intros [= <-]. reflexivity.
  - intros authorization u H. split; [|reflexivity].
    eapply protectRoute_no_password; eauto.
  - intros reqUser name obj. unfold updateProfile.
    destruct (reqUser !! "id") as [[| |id|]|]; simpl; try discriminate.
    unfold User_findByPk_exclude_password.
    destruct (List.find _ _) as [x|]; simpl; [|discriminate].
    intros [= <-]. apply exclude_password_lookup.
  - intros name email p1 p2. unfold register.
    destruct (User_findOne_email email db); reflexivity.
  - intros name email password. unfold register, db'.
    rewrite User_findOne_email_set_password.
    destruct (User_findOne_email email db); reflexivity.
  - reflexivity.
  - intros reqUser name. unfold updateProfile, db'.
    destruct (reqUser !! "id") as [[| |id|]|]; try reflexivity. simpl.
    do 2 f_equal.
    change (set_users (set_password uid h db)
              (User_update_name name id (users (set_password uid h db))))
      with (set_users db
              (User_update_name name id
                 (List.map (set_password_row uid h) (users db)))).
    rewrite User_update_name_set_password.
    apply (User_findByPk_set_password uid h id
             (set_users db (User_update_name name id (users db)))).
  - intros authorization. unfold protectRoute, db'.
    destruct authorization as [hd|]; [|reflexivity].
    destruct (negb (String.prefix "Bearer " hd)); [reflexivity|].
    destruct (match split_space_1 hd with
              | Some token => verificarToken jwt_verify env now token
              | None => JsonWebTokenError
              end) as [payload| | |]; try reflexivity.
    destruct (payload !! "id") as [[| |id|]|]; try reflexivity.
    now rewrite User_findByPk_set_password.
  - intros email password Hsame. unfold login, db'.
    rewrite User_findOne_email_set_password.
    destruct (User_findOne_email email db) as [u|] eqn:E; simpl; [|reflexivity].
    specialize (Hsame u eq_refl).
    set (u' := set_password_row uid h u).
    assert (Hv : validatePassword (u_password u') password
                 = validatePassword (u_password u) password).
    { unfold u', set_password_row.
      destruct (u_id u =? uid)%Z eqn:Eid; [|reflexivity].
      simpl. apply Hsame. now apply Z.eqb_eq. }
    assert (Hact : u_active u' = u_active u)
      by (unfold u', set_password_row; now destruct (u_id u =? uid)%Z).
    assert (Hobj : forall p1 p2 a1 a2 la,
              id_name_email {| u_id := u_id u'; u_name := u_name u';
                               u_email := u_email u'; u_password := p1;
                               u_active := a1; u_lastAccess := la |}
              = id_name_email {| u_id := u_id u; u_name := u_name u;
                                 u_email := u_email u; u_password := p2;
                                 u_active := a2; u_lastAccess := la |})
      by (intros; unfold u', set_password_row;
          now destruct (u_id u =? uid)%Z).
    rewrite Hv, Hact.
    destruct (negb (u_active u)); [reflexivity|].
    destruct (negb (validatePassword (u_password u) password)); [reflexivity|].
    simpl. now rewrite (Hobj _ (u_password u) _ (u_active u)).
Qed.

End AuthProperties.

(** ** Well-formed stores are what the handlers produce *)

Section StoreInvariant.

Variable iLike : string -> string -> bool.

Lemma empty_db_wf : tasks_wf empty_db.
Proof. split; constructor. Qed.

Lemma createTask_wf db now userId b :
  tasks_wf db -> tasks_wf (fst (createTask db now userId b)).
Proof.
  intros [Hnd Hall]. unfold tasks_wf; simpl. split.
  - rewrite List.map_app; simpl. apply NoDup_app. split; [assumption|].
    split; [|apply NoDup_singleton].
    intros i Hi Hn. apply list_elem_of_singleton in Hn. subst i.
    apply list_elem_of_In, in_map_iff in Hi as (t & Ht & Hin).
    rewrite Forall_forall in Hall. apply list_elem_of_In, Hall in Hin. lia.
  - apply Forall_app. split.
    + eapply Forall_impl; [exact Hall|]. simpl. intros; lia.
    + repeat constructor. simpl. lia.
Qed.

Lemma updateTask_wf db userId id b :
  tasks_wf db -> tasks_wf (fst (updateTask iLike db userId id b)).
Proof.
  intros Hwf. unfold updateTask.
  destruct (Task_findOne iLike (where_id_user id userId) db) as [t|] eqn:E;
    [|assumption].
  apply Task_findOne_Some in E as (Hin & _ & _).
  destruct Hwf as [Hnd Hall]. unfold tasks_wf; simpl. split.
  - now rewrite save_task_ids.
  - rewrite Forall_forall in Hall. apply Forall_forall. intros x Hx.
    apply list_elem_of_In in Hx. unfold save_task in Hx.
    apply in_map_iff in Hx as (y & Hy & Hiny).
    destruct (t_id y =? t_id (Task_update t b))%Z; subst x.
    + simpl. apply Hall, list_elem_of_In, Hin.
    + apply Hall, list_elem_of_In, Hiny.
Qed.

Lemma deleteTask_wf db userId id :
  tasks_wf db -> tasks_wf (fst (deleteTask iLike db userId id)).
Proof.
  intros Hwf. unfold deleteTask.
  destruct (Task_findOne iLike (where_id_user id userId) db) as [t|] eqn:E;
    [|assumption].
  destruct Hwf as [Hnd Hall]. unfold tasks_wf, destroy_task; simpl. split.
  - revert Hnd. generalize (tasks db) as ts.
    induction ts as [|x ts IH]; simpl; [auto|]. intros Hnd.
    apply NoDup_cons in Hnd as [Hx Hnd].
    destruct (negb (t_id x =? t_id t)%Z); simpl; [|auto].
    apply NoDup_cons. split; [|auto]. intros Hin. apply Hx.
    apply list_elem_of_In, in_map_iff in Hin as (y & Hy & Hin).
    apply List.filter_In in Hin as [Hin _].
    rewrite <- Hy. apply list_elem_of_In, in_map, Hin.
  - rewrite Forall_forall in Hall. apply Forall_forall. intros x Hx.
    apply list_elem_of_In, List.filter_In in Hx as [Hx _].
    apply Hall, list_elem_of_In, Hx.
Qed.

End StoreInvariant.

Lemma demo_db_wf : tasks_wf demo_db.
Proof.
  split.
  - apply (bool_decide_unpack _). vm_compute. exact I.
  - repeat constructor; simpl; lia.
Defined.

(** ** The theorems at concrete requests *)

Lemma foreign_task_not_found_witness :
  getTask exact_iLike demo_db 2 1 = (demo_db, not_found)
  /\ updateTask exact_iLike demo_db 2 1 only_completed_true
     = (demo_db, not_found)
  /\ deleteTask exact_iLike demo_db 2 1 = (demo_db, not_found).
Proof.
  refine (proj1 (foreign_task_not_found exact_iLike demo_db
                   (task_of 1 1 "report" true (Some 50) high 100) 2
                   only_completed_true empty_db demo_db_wf _ _ _)).
  - simpl. auto.
  - simpl. lia.
  - simpl. intros x [].
Defined.

Lemma updateTask_partial_witness :
  exists t',
    snd (updateTask exact_iLike demo_db 1 2 only_completed_true)
    = {| status := 200; success := true;
         body := BTask (Some "Task updated successfully") t' |}
    /\ t_completed t' = true /\ t_title t' = "call"
    /\ t_dueDate t' = None /\ t_priority t' = low.
Proof.
  destruct (updateTask_partial exact_iLike demo_db 1 2 only_completed_true
              (task_of 2 1 "call" false None low 200) eq_refl)
    as (t' & db' & Hu & _ & _ & Ht & _ & _ & _ & _ & Hc & Hd & _ & Hp & _).
  exists t'. rewrite Hu. split; [reflexivity|].
  split; [apply Hc; reflexivity|].
  split; [apply Ht; reflexivity|].
  split; [apply Hd; reflexivity|apply Hp; reflexivity].
Defined.

Lemma getTasks_order_witness :
  exists rows pg a b,
    getTasks exact_iLike demo_db 1 no_query
    = (demo_db, {| status := 200; success := true; body := BTasks rows pg |})
    /\ rows !! 0%nat = Some a /\ rows !! 2%nat = Some b
    /\ t_id a = 3%Z /\ t_id b = 1%Z
    /\ ~ (t_completed a = true /\ t_completed b = false).
Proof.
  destruct (getTasks_order exact_iLike demo_db 1 no_query)
    as (rows & pg & Hg & _ & Hord).
  vm_compute in Hg. injection Hg as <- <-.
  eexists _, _, _, _. split; [vm_compute; reflexivity|].
  split; [reflexivity|]. split; [reflexivity|].
  split; [reflexivity|]. split; [reflexivity|].
  refine (proj1 (Hord 0%nat 2%nat _ _ _ eq_refl eq_refl)). lia.
Defined.

Lemma getTasks_defaults_witness :
  getTasks exact_iLike demo_db 1 no_query
  = getTasks exact_iLike demo_db 1 (set_page no_query 1)
  /\ getTasks exact_iLike demo_db 1 no_query
     = getTasks exact_iLike demo_db 1 (set_limit no_query 10)
  /\ exists rows pg,
       getTasks exact_iLike demo_db 1 no_query
       = (demo_db, {| status := 200; success := true; body := BTasks rows pg |})
       /\ (length rows <= 10)%nat /\ pg_page pg = 1%Z /\ pg_limit pg = 10%Z.
Proof.
  destruct (getTasks_defaults exact_iLike demo_db 1 no_query) as (H1 & H2 & H3).
  split; [apply H1; reflexivity|]. split; [apply H2; reflexivity|].
  destruct (H3 eq_refl eq_refl) as (rows & pg & Hg & _ & Hlen & Hp & Hl).
  exists rows, pg. auto.
Defined.

Lemma getStatistics_counts_witness :
  exists byPriority,
    getStatistics exact_iLike demo_db 1
    = (demo_db, {| status := 200; success := true;
                   body := BStatistics 3 1 2 byPriority |})
    /\ byPriority !! "low" = Some 2%Z
    /\ byPriority !! "medium" = None
    /\ (0 < 2)%Z.
Proof.
  destruct (getStatistics_counts exact_iLike demo_db 1)
    as (total & completed & pending & byPriority & Hg & _ & _ & _ & Hmem & _).
  vm_compute in Hg. injection Hg as <- <- <- <-.
  eexists. split; [vm_compute; reflexivity|].
  split; [reflexivity|]. split; [reflexivity|].
  exact (proj2 (Hmem "low" 2%Z eq_refl)).
Defined.

Lemma login_outcomes_witness :
  status (snd (login demo_validate demo_sign demo_db demo_env 1000
                 "nobody@example.com" "Secret1")) = 401%Z
  /\ status (snd (login demo_validate demo_sign demo_db demo_env 1000
                    "luis@example.com" "Secret2")) = 403%Z
  /\ status (snd (login demo_validate demo_sign demo_db demo_env 1000
                    "ana@example.com" "Wrong99")) = 401%Z
  /\ exists db',
       login demo_validate demo_sign demo_db demo_env 1000
         "ana@example.com" "Secret1"
       = (db', {| status := 200; success := true;
                  body := BUserToken "Session started successfully"
                            (<["id" := JNum 1]>
                             (<["name" := JStr "Ana"]>
                              (<["email" := JStr "ana@example.com"]> ∅)))
                            "jwt:ana@example.com" |})
       /\ (u_lastAccess <$> User_findOne_email "ana@example.com" db')
          = Some (Some 1000%Z).
Proof.
  split; [|split; [|split]].
  - rewrite (proj1 (login_outcomes demo_validate demo_sign demo_db demo_env
                      1000 "nobody@example.com" "Secret1")); [reflexivity|].
    intros u [<-|[<-|[]]]; discriminate.
  - destruct (proj2 (login_outcomes demo_validate demo_sign demo_db demo_env
                       1000 "luis@example.com" "Secret2") luis eq_refl)
      as (H & _ & _).
    now rewrite (H eq_refl).
  - destruct (proj2 (login_outcomes demo_validate demo_sign demo_db demo_env
                       1000 "ana@example.com" "Wrong99") ana eq_refl)
      as (_ & H & _).
    now rewrite (H eq_refl eq_refl).
  - destruct (proj2 (login_outcomes demo_validate demo_sign demo_db demo_env
                       1000 "ana@example.com" "Secret1") ana eq_refl)
      as (_ & _ & H).
    destruct (H eq_refl eq_refl) as (db' & Hl & _ & _ & _ & _ & Hf & _).
    exists db'. split; [exact Hl|]. now rewrite Hf.
Defined.

Lemma login_inactive_witness :
  login demo_validate demo_sign demo_db demo_env 1000
    "luis@example.com" "Secret2"
  = (demo_db, {| status := 403; success := false;
                 body := BMessage "User inactive. Contact administrator" |})
  /\ login demo_validate demo_sign demo_db demo_env 1000
       "luis@example.com" "Wrong99"
     = (demo_db, {| status := 403; success := false;
                    body := BMessage "User inactive. Contact administrator" |})
  /\ demo_validate (u_password luis) "Secret2" = true
  /\ demo_validate (u_password luis) "Wrong99" = false.
Proof.
  pose proof (login_inactive demo_validate demo_sign demo_db demo_env 1000
                "luis@example.com" luis eq_refl eq_refl) as H.
  split; [exact (proj1 (H "Secret2"))|].
  split; [exact (proj1 (H "Wrong99"))|].
  split; reflexivity.
Defined.


(** C2 as stated fails for login: in two stores that differ only in
    the stored hash of Ana, the same login is answered 200 in one and
    401 in the other. *)
Lemma login_response_depends_on_hash :
  users (set_password 1 (demo_hash "Other99") demo_db)
  = [with_password (demo_hash "Other99") ana; luis]
  /\ status (snd (login demo_validate demo_sign demo_db demo_env 1000
                    "ana@example.com" "Secret1")) = 200%Z
  /\ status (snd (login demo_validate demo_sign
                    (set_password 1 (demo_hash "Other99") demo_db)
                    demo_env 1000 "ana@example.com" "Secret1")) = 401%Z
  /\ snd (login demo_validate demo_sign
            (set_password 1 (demo_hash "Other99") demo_db)
            demo_env 1000 "ana@example.com" "Secret1")
     <> snd (login demo_validate demo_sign demo_db demo_env 1000
               "ana@example.com" "Secret1").
Proof.
  split; [reflexivity|]. split; [reflexivity|]. split; [reflexivity|].
  intros H. apply (f_equal status) in H. vm_compute in H. discriminate.
Qed.

Lemma password_not_exposed_witness :
  snd (login demo_validate demo_sign
         (set_password 1 (demo_hash "Other99") demo_db)
         demo_env 1000 "ana@example.com" "Wrong99")
  = snd (login demo_validate demo_sign demo_db demo_env 1000
           "ana@example.com" "Wrong99")
  /\ (forall obj,
        response_user (snd (login demo_validate demo_sign demo_db demo_env
                              1000 "ana@example.com" "Secret1")) = Some obj ->
        obj !! "password" = None)
  /\ exists u,
       protectRoute demo_verify demo_db demo_env 1000
         (Some "Bearer jwt:ana@example.com") = Next u
       /\ u !! "password" = None
       /\ u !! "email" = Some (JStr "ana@example.com").
Proof.
  destruct (password_not_exposed demo_hash demo_validate demo_sign demo_verify
              demo_db demo_env 1000 1 (demo_hash "Other99"))
    as (_ & Hlogin & Hguard & _ & _ & _ & _ & _ & _ & Hsame).
  split; [|split].
  - apply Hsame. intros u Hu _. vm_compute in Hu. injection Hu as <-.
    reflexivity.
  - apply Hlogin.
  - eexists. split; [vm_compute; reflexivity|].
    split; [|reflexivity].
    refine (proj1 (Hguard (Some "Bearer jwt:ana@example.com") _ _)).
    vm_compute. reflexivity.
Defined.

(** * Further properties of the task controller *)

Section TaskExtras.

Variable iLike : string -> string -> bool.

(** In a well-formed store the owner's lookup of a stored task finds
    that task. *)
Lemma Task_findOne_own db t :
  tasks_wf db -> In t (tasks db) ->
  Task_findOne iLike (where_id_user (t_id t) (t_userId t)) db = Some t.
Proof.
  intros Hwf Hin.
  destruct (Task_findOne iLike (where_id_user (t_id t) (t_userId t)) db)
    as [x|] eqn:E.
  - apply Task_findOne_Some in E as (Hx & Hid & _).
    f_equal. eapply tasks_wf_id_inj; eauto.
  - unfold Task_findOne in E. pose proof (find_none _ _ E t Hin) as Hn.
    assert (where_matches iLike (where_id_user (t_id t) (t_userId t)) t = true)
      by (apply where_id_user_matches; auto).
    congruence.
Qed.

Lemma tasks_wf_fresh db x :
  tasks_wf db -> In x (tasks db) -> t_id x <> nextTaskId db.
Proof.
  intros [_ Hall] Hin. rewrite Forall_forall in Hall.
  apply list_elem_of_In, Hall in Hin. lia.
Qed.

(** X5.  Every handler of the task controller keeps the ids of the tasks
    table unique and below the next id of the sequence. *)
Theorem task_handlers_keep_wf db now userId id cb ub q :
  tasks_wf db ->
  tasks_wf (fst (createTask db now userId cb))
  /\ tasks_wf (fst (updateTask iLike db userId id ub))
  /\ tasks_wf (fst (deleteTask iLike db userId id))
  /\ tasks_wf (fst (getTask iLike db userId id))
  /\ tasks_wf (fst (getTasks iLike db userId q))
  /\ tasks_wf (fst (getStatistics iLike db userId))
  /\ (nextTaskId db <= nextTaskId (fst (createTask db now userId cb)))%Z
  /\ nextTaskId (fst (updateTask iLike db userId id ub)) = nextTaskId db
  /\ nextTaskId (fst (deleteTask iLike db userId id)) = nextTaskId db.
Proof.
  intros Hwf.
  split; [now apply createTask_wf|].
  split; [now apply updateTask_wf|].
  split; [now apply deleteTask_wf|].
  split; [unfold getTask; now destruct (Task_findOne _ _ _)|].
  split.
  { unfold getTasks. now destruct (Task_findAndCountAll _ _ _ _ _ _). }
  split; [assumption|].
  split; [simpl; lia|].
  split.
  - unfold updateTask. now destruct (Task_findOne _ _ _).
  - unfold deleteTask. now destruct (Task_findOne _ _ _).
Qed.

(** X2.  A created task can be fetched by its creator: the response of
    [createTask] carries a task with a new id, the values sent and the
    column defaults, and [getTask] with that id answers 200 with the
    same task. *)
Theorem createTask_then_getTask db now userId cb :
  tasks_wf db ->
  exists t db',
    createTask db now userId cb
    = (db', {| status := 201; success := true;
               body := BTask (Some "Task created successfully") t |})
    /\ getTask iLike db' userId (t_id t)
       = (db', {| status := 200; success := true; body := BTask None t |})
    /\ (forall x, In x (tasks db) -> t_id x <> t_id t)
    /\ t_title t = c_title cb /\ t_description t = c_description cb
    /\ t_dueDate t = c_dueDate cb /\ t_tags t = c_tags cb
    /\ t_completed t = false
    /\ (c_priority cb = None -> t_priority t = medium)
    /\ (forall p, c_priority cb = Some p -> t_priority t = p)
    /\ t_userId t = userId.
Proof.
  intros Hwf. unfold createTask. eexists _, _. split; [reflexivity|].
  split.
  { unfold getTask, Task_findOne; simpl.
    rewrite (find_app_new _ (tasks db)); [reflexivity| |].
    - destruct (List.find _ (tasks db)) as [x|] eqn:E; [|reflexivity].
      apply find_some in E as [Hin Hm].
      apply where_id_user_matches in Hm as [Hid _]. simpl in Hid.
      now apply (tasks_wf_fresh db x Hwf) in Hin.
    - apply where_id_user_matches. simpl. auto. }
  split; [intros x Hx; simpl; now apply tasks_wf_fresh|].
  simpl. repeat split.
  - intros H. now rewrite H.
  - intros p H. now rewrite H.
Qed.

(** X1.  For the id of a stored task, in a well-formed store:
    [getTask] answers 200 with that very task when the caller owns it,
    and 404 when someone else owns it; it never answers with another
    task.  The store is unchanged. *)
Theorem getTask_stored db userId x :
  tasks_wf db -> In x (tasks db) ->
  (t_userId x = userId ->
   getTask iLike db userId (t_id x)
   = (db, {| status := 200; success := true; body := BTask None x |}))
  /\ (t_userId x <> userId ->
      getTask iLike db userId (t_id x) = (db, not_found))
  /\ (forall st sc message t,
        getTask iLike db userId (t_id x)
        = (db, {| status := st; success := sc; body := BTask message t |}) ->
        t = x /\ t_userId x = userId /\ st = 200%Z).
Proof.
  intros Hwf Hin. unfold getTask. split; [|split].
  - intros <-. now rewrite (Task_findOne_own db x Hwf Hin).
  - intros Hne.
    rewrite (Task_findOne_foreign iLike db x userId Hwf Hin); [reflexivity|].
    congruence.
  - intros st sc message t.
    destruct (Task_findOne iLike (where_id_user (t_id x) userId) db)
      as [y|] eqn:E; [|discriminate].
    intros [= <- _ _ <-]. apply Task_findOne_Some in E as (Hy & Hid & Hu).
    assert (y = x) by (eapply tasks_wf_id_inj; eauto). subst y. auto.
Qed.

Lemma destroy_task_length (t : Task) (ts : list Task) :
  NoDup (List.map t_id ts) -> In t ts ->
  (length (destroy_task t ts) + 1 = length ts)%nat.
Proof.
  unfold destroy_task. induction ts as [|x ts IH]; simpl; [tauto|].
  intros Hnd Hin. apply NoDup_cons in Hnd as [Hx Hnd].
  destruct (t_id x =? t_id t)%Z eqn:E; simpl.
  - apply Z.eqb_eq in E.
    assert (Hall : List.filter (fun y => negb (t_id y =? t_id t)%Z) ts = ts).
    { clear IH Hin Hnd. induction ts as [|y ts IH]; simpl; [reflexivity|].
      destruct (t_id y =? t_id t)%Z eqn:Ey; simpl.
      - apply Z.eqb_eq in Ey. exfalso. apply Hx.
        apply list_elem_of_In. left. congruence.
      - f_equal. apply IH. intros H. apply Hx.
        apply list_elem_of_In. right. now apply list_elem_of_In. }
    rewrite Hall. lia.
  - destruct Hin as [->|Hin]; [rewrite Z.eqb_refl in E; discriminate|].
    rewrite <- (IH Hnd Hin). lia.
Qed.

(** X3.  Deleting an owned task answers 200 and removes that task and no
    other: the other tasks stay, in their order, the table is one row
    shorter, and from then on [getTask] and a second [deleteTask] with
    the id answer 404. *)
Theorem deleteTask_owned db t :
  tasks_wf db -> In t (tasks db) ->
  exists db',
    deleteTask iLike db (t_userId t) (t_id t)
    = (db', {| status := 200; success := true;
               body := BMessage "Task deleted successfully" |})
    /\ tasks db' = List.filter (fun x => negb (t_id x =? t_id t)%Z) (tasks db)
    /\ ~ In t (tasks db')
    /\ (forall x, In x (tasks db) -> x <> t -> In x (tasks db'))
    /\ (length (tasks db') + 1 = length (tasks db))%nat
    /\ getTask iLike db' (t_userId t) (t_id t) = (db', not_found)
    /\ deleteTask iLike db' (t_userId t) (t_id t) = (db', not_found).
Proof.
  intros Hwf Hin. unfold deleteTask at 1.
  rewrite (Task_findOne_own db t Hwf Hin). eexists. split; [reflexivity|].
  simpl. split; [reflexivity|].
  assert (Hgone : forall x, In x (destroy_task t (tasks db)) -> t_id x <> t_id t).
  { intros x Hx. apply List.filter_In in Hx as [_ Hx].
    apply negb_true_iff, Z.eqb_neq in Hx. exact Hx. }
  split; [intros H; now apply Hgone in H|].
  split.
  { intros x Hx Hne. apply List.filter_In. split; [assumption|].
    apply negb_true_iff, Z.eqb_neq. intros Heq. apply Hne.
    eapply tasks_wf_id_inj; eauto. }
  split; [apply destroy_task_length; [apply (proj1 Hwf)|assumption]|].
  assert (E : Task_findOne iLike (where_id_user (t_id t) (t_userId t))
                (set_tasks db (destroy_task t (tasks db))) = None).
  { apply Task_findOne_absent. exact Hgone. }
  unfold getTask, deleteTask. now rewrite E.
Qed.

Lemma Task_update_idem t b : Task_update (Task_update t b) b = Task_update t b.
Proof.
  unfold Task_update; simpl.
  destruct (b_title b), (b_description b), (b_completed b), (b_dueDate b),
    (b_priority b), (b_tags b); reflexivity.
Qed.

Lemma save_task_idem t' ts : save_task t' (save_task t' ts) = save_task t' ts.
Proof.
  unfold save_task. rewrite List.map_map. apply List.map_ext. intros x.
  destruct (t_id x =? t_id t')%Z eqn:E; [now rewrite Z.eqb_refl|now rewrite E].
Qed.

(** X4.  An update is idempotent: sending the same body a second time
    gives the same response and leaves the store as the first update
    left it. *)
Theorem updateTask_twice db userId id b t :
  Task_findOne iLike (where_id_user id userId) db = Some t ->
  updateTask iLike (fst (updateTask iLike db userId id b)) userId id b
  = updateTask iLike db userId id b.
Proof.
  intros Hf. pose proof (Task_findOne_Some _ _ _ _ _ Hf) as (Hin & Hid & Hu).
  unfold updateTask at 2 3. rewrite Hf. simpl.
  unfold updateTask.
  assert (E : Task_findOne iLike (where_id_user id userId)
                (set_tasks db (save_task (Task_update t b) (tasks db)))
              = Some (Task_update t b)).
  { unfold Task_findOne; simpl. eapply find_save_task; eauto.
    apply where_id_user_matches. simpl. auto. }
  rewrite E. rewrite Task_update_idem. unfold set_tasks; simpl.
  now rewrite save_task_idem.
Qed.

(** ** What a listing contains *)



(** The rows of a page whose offset is below [2 ^ 53]. *)
Lemma page_rows_exact db userId q L p :
  (1 <= p < 2 ^ 53)%Z -> (1 <= L < 2 ^ 53)%Z -> ((p - 1) * L < 2 ^ 53)%Z ->
  page_rows iLike db userId q L p
  = take (Z.to_nat L)
      (drop (Z.to_nat ((p - 1) * L))
         (merge_sort (order_le listing_order)
            (List.filter (where_matches iLike (listing_where userId q))
               (tasks db)))).
Proof.
  intros Hp HL Hoff. unfold page_rows, getTasks; simpl default.
  unfold JS.sub, JS.mul, JS.parseInt_string.
  rewrite (JS_toNumber_exact p) by lia.
  rewrite (JS_toNumber_exact L) by lia.
  rewrite (JS_toNumber_exact (p - 1)) by lia.
  rewrite (JS_toNumber_exact ((p - 1) * L)) by nia.
  rewrite JS_parseInt_number_exact
    by (change (10 ^ 21)%Z with 1000000000000000000000%Z;
        change (2 ^ 53)%Z with 9007199254740992%Z in Hoff; lia).
  reflexivity.
Qed.

Lemma first_pages_exact db userId q L (k : nat) :
  (1 <= L < 2 ^ 53)%Z ->
  (forall p, (1 <= p <= Z.of_nat k)%Z ->
     (p < 2 ^ 53)%Z /\ ((p - 1) * L < 2 ^ 53)%Z) ->
  first_pages iLike db userId q L k
  = take (k * Z.to_nat L)
      (merge_sort (order_le listing_order)
         (List.filter (where_matches iLike (listing_where userId q))
            (tasks db))).
Proof.
  intros HL. induction k as [|k IH]; intros Hk; [reflexivity|].
  cbn [first_pages]. rewrite IH by (intros p Hp; apply Hk; lia).
  destruct (Hk (Z.of_nat (S k)) ltac:(lia)) as [Hp Hoff].
  rewrite page_rows_exact by lia.
  replace (Z.to_nat ((Z.of_nat (S k) - 1) * L)) with (k * Z.to_nat L)%nat by nia.
  rewrite take_take_drop. f_equal. lia.
Qed.

Lemma order_le_antisym order a b :
  order_le order a b -> order_le order b a -> order_compare order a b = Eq.
Proof.
  unfold order_le. rewrite (cmp_flip _ (order_compare_comparator order) a b).
  destruct (order_compare order a b); simpl; congruence.
Qed.

(** X8.  When no two matching tasks tie on all three keys of the
    order (completed, dueDate, createdAt), the order of the matching
    tasks is determined, and the pages of a listing, one after the
    other, are the matching tasks in that order: with a limit [L] and
    [N] matching tasks, pages 1 to [ceil (N / L)] together hold every
    matching task once, and they are the one ordered arrangement of the
    matching tasks there is. *)
Theorem all_pages_cover db userId q L :
  (1 <= L <= 100)%Z ->
  let matching :=
    List.filter (where_matches iLike (listing_where userId q)) (tasks db) in
  let N := Z.of_nat (length matching) in
  (N < 2 ^ 53)%Z ->
  (forall a b, In a matching -> In b matching ->
     order_compare listing_order a b = Eq -> a = b) ->
  first_pages iLike db userId q L (Z.to_nat ((N + L - 1) / L))
  = merge_sort (order_le listing_order) matching
  /\ first_pages iLike db userId q L (Z.to_nat ((N + L - 1) / L))
     ≡ₚ matching
  /\ (forall ordered : list Task,
        StronglySorted (order_le listing_order) ordered ->
        ordered ≡ₚ matching ->
        first_pages iLike db userId q L (Z.to_nat ((N + L - 1) / L))
        = ordered).
Proof.
  intros HL matching N HN Hties.
  set (c := ((N + L - 1) / L)%Z).
  assert (Hc : ((c - 1) * L < N <= c * L \/ (N = 0 /\ c = 0))%Z).
  { pose proof (Z.div_mod (N + L - 1) L ltac:(lia)) as E.
    pose proof (Z.mod_pos_bound (N + L - 1) L ltac:(lia)). fold c in E.
    left. nia. }
  assert (Hc0 : (0 <= c)%Z) by (apply Z.div_pos; lia).
  assert (E : first_pages iLike db userId q L (Z.to_nat c)
              = merge_sort (order_le listing_order) matching).
  { rewrite first_pages_exact.
    - apply take_ge. rewrite merge_sort_length. fold matching. nia.
    - change (2 ^ 53)%Z with 9007199254740992%Z. lia.
    - intros p Hp. rewrite Z2Nat.id in Hp by lia.
      change (2 ^ 53)%Z with 9007199254740992%Z in *. nia. }
  split; [exact E|]. split; [rewrite E; apply merge_sort_Permutation|].
  intros ordered Hs Hp. rewrite E.
  pose proof (order_le_total listing_order) as HT.
  pose proof (order_le_trans listing_order) as HTr.
  apply (StronglySorted_unique_strong (order_le listing_order)).
  - intros x1 x2 H1 H2 H12 H21. apply Hties.
    + rewrite (merge_sort_Permutation (order_le listing_order) matching) in H1.
      now apply list_elem_of_In.
    + rewrite Hp in H2. now apply list_elem_of_In.
    + now apply order_le_antisym.
  - apply (StronglySorted_merge_sort (order_le listing_order)).
  - exact Hs.
  - rewrite Hp. apply merge_sort_Permutation.
Qed.

(** ** Statistics after a creation *)

Lemma count_of_byPriority w db p :
  count_of
    (fold_left
       (fun (acc : gmap string Z) item => <[priority_key item.1 := item.2]> acc)
       (Task_countByPriority iLike w db) ∅) p
  = group_count p (Task_countByPriority iLike w db).
Proof.
  destruct (Task_countByPriority_ok iLike w db) as [Hnd _].
  unfold count_of, group_count.
  rewrite (byPriority_lookup _ ∅ p Hnd), lookup_empty.
  now destruct (List.find _ _).
Qed.

(** X9.  Creating a task adds one to the creator's total and pending
    counts, leaves the completed count, and adds one to the count of
    the task's priority, which is medium when none is sent. *)
Theorem createTask_statistics db now userId cb :
  exists total completed pending m m' db',
    getStatistics iLike db userId
    = (db, {| status := 200; success := true;
              body := BStatistics total completed pending m |})
    /\ db' = fst (createTask db now userId cb)
    /\ getStatistics iLike db' userId
       = (db', {| status := 200; success := true;
                  body := BStatistics (total + 1) completed (pending + 1) m' |})
    /\ forall p,
         count_of m' p
         = (count_of m p
            + if Priority_eqb (default medium (c_priority cb)) p then 1 else 0)%Z.
Proof.
  eexists _, _, _, _, _, _. split; [reflexivity|]. split; [reflexivity|].
  assert (Hcount : forall w, w_id w = None -> w_userId w = Some userId ->
            w_priority w = None -> w_search w = None ->
            Task_count iLike w (fst (createTask db now userId cb))
            = (Task_count iLike w db
               + if opt_test (w_completed w) (fun c => Bool.eqb false c)
                 then 1 else 0)%Z).
  { intros w H1 H2 H3 H4. unfold Task_count; simpl.
    rewrite List.filter_app, length_app, Nat2Z.inj_add. f_equal. simpl.
    unfold where_matches; simpl. rewrite H1, H2, H3, H4; simpl.
    rewrite Z.eqb_refl; simpl. rewrite !andb_true_r.
    now destruct (opt_test (w_completed w) _). }
  split.
  - unfold getStatistics. f_equal. f_equal.
    rewrite !Hcount by reflexivity. simpl. f_equal; lia.
  - intros p. rewrite !count_of_byPriority.
    unfold Task_countByPriority at 1; simpl.
    rewrite List.filter_app, fold_left_app; simpl.
    rewrite where_user_matches; simpl. rewrite Z.eqb_refl; simpl.
    now rewrite group_count_count_into.
Qed.

(** ** Isolation of users *)

Lemma where_matches_foreign w x A :
  w_userId w = Some A -> t_userId x <> A -> where_matches iLike w x = false.
Proof.
  intros Hw Hne. unfold where_matches. rewrite Hw; simpl.
  apply Z.eqb_neq in Hne. rewrite Hne. now rewrite andb_false_r.
Qed.

Lemma filter_map_same (p : Task -> bool) (f : Task -> Task) (l : list Task) :
  (forall x, In x l -> f x = x \/ (p x = false /\ p (f x) = false)) ->
  List.filter p (List.map f l) = List.filter p l.
Proof.
  induction l as [|x l IH]; simpl; intros H; [reflexivity|].
  rewrite IH by (intros y Hy; apply H; now right).
  destruct (H x (or_introl eq_refl)) as [->|[-> ->]]; reflexivity.
Qed.

Lemma filter_filter_same (p r : Task -> bool) (l : list Task) :
  (forall x, In x l -> r x = false -> p x = false) ->
  List.filter p (List.filter r l) = List.filter p l.
Proof.
  induction l as [|x l IH]; simpl; intros H; [reflexivity|].
  rewrite <- IH by (intros y Hy; apply H; now right).
  destruct (r x) eqn:E; simpl; [reflexivity|].
  now rewrite (H x (or_introl eq_refl) E).
Qed.

Lemma find_filter_head (p : Task -> bool) (l : list Task) :
  List.find p l = head (List.filter p l).
Proof.
  induction l as [|x l IH]; simpl; [reflexivity|]. now destruct (p x).
Qed.

(** The reads of a user depend on the store only through the rows
    that pass where clauses on the user's id. *)
Lemma reads_of_user db db' A q id :
  (forall w, w_userId w = Some A ->
     List.filter (where_matches iLike w) (tasks db')
     = List.filter (where_matches iLike w) (tasks db)) ->
  snd (getTasks iLike db' A q) = snd (getTasks iLike db A q)
  /\ snd (getStatistics iLike db' A) = snd (getStatistics iLike db A)
  /\ snd (getTask iLike db' A id) = snd (getTask iLike db A id).
Proof.
  intros H. split; [|split].
  - unfold getTasks, Task_findAndCountAll. now rewrite H by reflexivity.
  - unfold getStatistics, Task_count, Task_countByPriority.
    now rewrite !H by reflexivity.
  - unfold getTask, Task_findOne. rewrite !find_filter_head.
    rewrite H by reflexivity. now destruct (head _).
Qed.

(** X10.  What another user creates, updates or deletes does not show in a
    user's listing, statistics or single-task reads. *)
Theorem other_users_writes_invisible db A B now id cb ub q id' db' :
  tasks_wf db -> A <> B ->
  db' = fst (createTask db now B cb)
  \/ db' = fst (updateTask iLike db B id ub)
  \/ db' = fst (deleteTask iLike db B id) ->
  snd (getTasks iLike db' A q) = snd (getTasks iLike db A q)
  /\ snd (getStatistics iLike db' A) = snd (getStatistics iLike db A)
  /\ snd (getTask iLike db' A id') = snd (getTask iLike db A id').
Proof.
  intros Hwf Hne Hop. apply reads_of_user. intros w Hw.
  destruct Hop as [->|[->| ->]].
  - simpl. rewrite List.filter_app; simpl.
    rewrite (where_matches_foreign w _ A Hw) by (simpl; congruence).
    apply app_nil_r.
  - unfold updateTask.
    destruct (Task_findOne iLike (where_id_user id B) db) as [t|] eqn:E;
      [|reflexivity].
    apply Task_findOne_Some in E as (Hin & Hid & Hu). simpl.
    apply filter_map_same. intros x Hx.
    destruct (t_id x =? t_id (Task_update t ub))%Z eqn:Ex; [|now left].
    right. apply Z.eqb_eq in Ex. simpl in Ex.
    assert (x = t) by (eapply tasks_wf_id_inj; eauto). subst x.
    split; apply (where_matches_foreign w _ A Hw); simpl; congruence.
  - unfold deleteTask.
    destruct (Task_findOne iLike (where_id_user id B) db) as [t|] eqn:E;
      [|reflexivity].
    apply Task_findOne_Some in E as (Hin & Hid & Hu). simpl.
    apply filter_filter_same. intros x Hx Hr.
    apply negb_false_iff, Z.eqb_eq in Hr.
    assert (x = t) by (eapply tasks_wf_id_inj; eauto). subst x.
    apply (where_matches_foreign w _ A Hw). congruence.
Qed.

End TaskExtras.

(** * Further properties of the accounts *)

Section AuthExtras.

Variable hashPassword : string -> string.
Variable validatePassword : string -> string -> bool.
Variable jwt_sign : JObj -> string -> string -> Z -> string.
Variable jwt_verify : string -> string -> Z -> Verified.

Lemma users_wf_id_inj db a b :
  users_wf db -> In a (users db) -> In b (users db) ->
  u_id a = u_id b -> a = b.
Proof.
  intros (_ & Hnd & _). revert Hnd. generalize (users db) as us.
  induction us as [|x us IH]; simpl; [tauto|].
  intros Hnd Ha Hb Heq. apply NoDup_cons in Hnd as [Hx Hnd].
  destruct Ha as [-> | Ha], Hb as [-> | Hb]; auto.
  - exfalso. apply Hx. rewrite Heq. apply list_elem_of_In, in_map, Hb.
  - exfalso. apply Hx. rewrite <- Heq. apply list_elem_of_In, in_map, Ha.
Qed.

Lemma map_save_user {B} (g : User -> B) u u' (us : list User) :
  (forall x, In x us -> u_id x = u_id u' -> x = u) -> g u' = g u ->
  List.map g (save_user u' us) = List.map g us.
Proof.
  intros Hinj Hg. unfold save_user. rewrite List.map_map.
  apply List.map_ext_in. intros x Hx.
  destruct (u_id x =? u_id u')%Z eqn:E; [|reflexivity].
  apply Z.eqb_eq in E. rewrite (Hinj x Hx E). exact Hg.
Qed.

Lemma map_User_update_name {B} (g : User -> B) name id (us : list User) :
  (forall x n, g {| u_id := u_id x; u_name := n; u_email := u_email x;
                    u_password := u_password x; u_active := u_active x;
                    u_lastAccess := u_lastAccess x |} = g x) ->
  List.map g (User_update_name name id us) = List.map g us.
Proof.
  intros Hg. unfold User_update_name. rewrite List.map_map.
  apply List.map_ext. intros x. destruct (u_id x =? id)%Z; [apply Hg|reflexivity].
Qed.

(** X16.  The handlers of the auth controller keep the emails of the users
    table unique and its ids unique and below the next id. *)
Theorem auth_handlers_keep_users_wf db env now name email password
    reqUser newName :
  users_wf db ->
  users_wf (fst (register hashPassword jwt_sign db env now name email password))
  /\ users_wf (fst (login validatePassword jwt_sign db env now email password))
  /\ users_wf (fst (updateProfile db reqUser newName))
  /\ users_wf (fst (profile db reqUser)).
Proof.
  intros Hwf. pose proof Hwf as (He & Hi & Hlt).
  split; [|split; [|split; [|assumption]]].
  - unfold register.
    destruct (User_findOne_email email db) as [u|] eqn:E; [assumption|].
    rewrite User_findOne_email_None in E.
    unfold users_wf; simpl. rewrite !List.map_app; simpl.
    split; [|split].
    + apply NoDup_app. split; [assumption|]. split; [|apply NoDup_singleton].
      intros e H1 H2. apply list_elem_of_singleton in H2. subst e.
      apply list_elem_of_In, in_map_iff in H1 as (x & Hx & Hin).
      now apply E in Hin.
    + apply NoDup_app. split; [assumption|]. split; [|apply NoDup_singleton].
      intros i H1 H2. apply list_elem_of_singleton in H2. subst i.
      apply list_elem_of_In, in_map_iff in H1 as (x & Hx & Hin).
      rewrite Forall_forall in Hlt. apply list_elem_of_In, Hlt in Hin. lia.
    + apply Forall_app. split.
      * eapply Forall_impl; [exact Hlt|]. simpl. intros; lia.
      * repeat constructor. simpl. lia.
  - unfold login.
    destruct (User_findOne_email email db) as [u|] eqn:E; [|assumption].
    destruct (negb (u_active u)); [assumption|].
    destruct (negb (validatePassword (u_password u) password)); [assumption|].
    apply User_findOne_email_Some in E as [Hin _].
    set (u' := {| u_id := u_id u; u_name := u_name u; u_email := u_email u;
                  u_password := u_password u; u_active := u_active u;
                  u_lastAccess := Some now |}).
    assert (Hinj : forall x, In x (users db) -> u_id x = u_id u' -> x = u)
      by (intros x Hx Hid; eapply users_wf_id_inj; eauto).
    unfold users_wf; simpl.
    rewrite (map_save_user u_email u u') by auto.
    rewrite (map_save_user u_id u u') by auto.
    split; [assumption|]. split; [assumption|].
    rewrite Forall_forall in Hlt. apply Forall_forall. intros x Hx.
    apply list_elem_of_In in Hx. unfold save_user in Hx.
    apply in_map_iff in Hx as (y & Hy & Hiny).
    destruct (u_id y =? u_id u')%Z; subst x.
    + simpl. apply Hlt, list_elem_of_In, Hin.
    + apply Hlt, list_elem_of_In, Hiny.
  - unfold updateProfile.
    destruct (reqUser !! "id") as [[| |id|]|]; try assumption.
    unfold users_wf; simpl.
    rewrite (map_User_update_name u_email) by reflexivity.
    rewrite (map_User_update_name u_id) by reflexivity.
    split; [assumption|]. split; [assumption|].
    rewrite Forall_forall in Hlt. apply Forall_forall. intros x Hx.
    apply list_elem_of_In in Hx. unfold User_update_name in Hx.
    apply in_map_iff in Hx as (y & Hy & Hiny).
    destruct (u_id y =? id)%Z; subst x; simpl;
      apply Hlt, list_elem_of_In, Hiny.
Qed.

(** X11.  A user who registered can log in: after a registration with a
    new email, a login with that email and the password answers 200
    with the user object the registration answered with; a login with
    a password that does not validate answers 401 and changes nothing;
    a second registration with the email is refused. *)
Theorem register_then_login db env now now' name email password :
  (forall u, In u (users db) -> u_email u <> email) ->
  validatePassword (hashPassword password) password = true ->
  exists db1 obj,
    register hashPassword jwt_sign db env now name email password
    = (db1, {| status := 201; success := true;
               body := BUserToken "User registered successfully" obj
                         (generarToken jwt_sign env now obj) |})
    /\ (exists db2,
          login validatePassword jwt_sign db1 env now' email password
          = (db2, {| status := 200; success := true;
                     body := BUserToken "Session started successfully" obj
                               (generarToken jwt_sign env now' obj) |}))
    /\ (forall wrong,
          validatePassword (hashPassword password) wrong = false ->
          login validatePassword jwt_sign db1 env now' email wrong
          = (db1, {| status := 401; success := false;
                     body := BMessage "Invalid credentials" |}))
    /\ (forall name2 password2,
          register hashPassword jwt_sign db1 env now' name2 email password2
          = (db1, {| status := 400; success := false;
                     body := BMessage "Email already registered" |})).
Proof.
  intros Hnew Hok. apply User_findOne_email_None in Hnew.
  unfold register at 1. rewrite Hnew. eexists _, _. split; [reflexivity|].
  set (db1 := {| users := _; tasks := tasks db; nextUserId := _;
                 nextTaskId := _ |}).
  assert (E : User_findOne_email email db1
              = Some (User_create hashPassword db name email password)).
  { unfold User_findOne_email, db1; simpl. apply find_app_new; [exact Hnew|].
    simpl. apply String.eqb_refl. }
  split; [|split].
  - unfold login. rewrite E. simpl. rewrite Hok. simpl.
    eexists. reflexivity.
  - intros wrong Hw. unfold login. rewrite E. simpl. now rewrite Hw.
  - intros name2 password2. unfold register. now rewrite E.
Qed.

Lemma find_exists {A} (p : A -> bool) (l : list A) (x : A) :
  In x l -> p x = true -> exists y, List.find p l = Some y /\ p y = true.
Proof.
  intros Hin Hp. destruct (List.find p l) as [y|] eqn:E.
  - exists y. split; [reflexivity|]. now apply find_some in E.
  - pose proof (find_none _ _ E x Hin). congruence.
Qed.

Lemma prefix_nil s : String.prefix "" s = true.
Proof. now destruct s. Qed.

(** X12.  The token of a login opens the protected routes: if the token has
    no space and verifies to a payload with the user's id, the auth
    middleware lets a request with [Bearer token] through and attaches
    the user as stored after the login, with the time of the login as
    lastAccess and without the password. *)
Theorem login_token_passes_guard db env now now' email password u payload :
  User_findOne_email email db = Some u ->
  u_active u = true ->
  validatePassword (u_password u) password = true ->
  until_space (generarToken jwt_sign env now (id_name_email u))
  = generarToken jwt_sign env now (id_name_email u) ->
  verificarToken jwt_verify env now'
    (generarToken jwt_sign env now (id_name_email u)) = Decoded payload ->
  payload !! "id" = Some (JNum (u_id u)) ->
  exists db' obj,
    login validatePassword jwt_sign db env now email password
    = (db', {| status := 200; success := true;
               body := BUserToken "Session started successfully"
                         (id_name_email u)
                         (generarToken jwt_sign env now (id_name_email u)) |})
    /\ protectRoute jwt_verify db' env now'
         (Some ("Bearer " ++ generarToken jwt_sign env now (id_name_email u)))
       = Next obj
    /\ obj !! "id" = Some (JNum (u_id u))
    /\ obj !! "name" = Some (JStr (u_name u))
    /\ obj !! "email" = Some (JStr (u_email u))
    /\ obj !! "lastAccess" = Some (JNum now)
    /\ obj !! "password" = None.
Proof.
  intros Hu Ha Hv Hsp Hver Hid.
  pose proof (User_findOne_email_Some _ _ _ Hu) as [Hin _].
  unfold login. rewrite Hu, Ha, Hv. simpl. eexists _, _.
  split; [reflexivity|].
  set (tok := generarToken jwt_sign env now _) in *.
  set (u' := {| u_id := u_id u; u_name := u_name u; u_email := u_email u;
                u_password := u_password u; u_active := true;
                u_lastAccess := Some now |}).
  destruct (find_exists (fun x => (u_id x =? u_id u)%Z) (users db) u Hin
              (Z.eqb_refl _)) as (y & Hy & Hpy).
  apply Z.eqb_eq in Hpy.
  assert (E : User_findByPk_exclude_password (u_id u)
                (set_users db (save_user u' (users db)))
              = Some (delete "password" (User_toJSON u'))).
  { unfold User_findByPk_exclude_password; simpl.
    rewrite (find_save_user _ y u' (users db) Hy); [reflexivity| |].
    - simpl. congruence.
    - simpl. apply Z.eqb_refl. }
  split.
  - unfold protectRoute. change ("" ++ tok) with tok.
    rewrite prefix_nil, Hsp, Hver, Hid, E. reflexivity.
  - repeat split.
Qed.

(** X13.  The auth middleware rejects with 401 only, and lets a request
    through only with a header that starts with [Bearer ], whose token
    verifies to a payload with the id of a stored user; the user it
    attaches is that user without the password. *)
Theorem protectRoute_sound db env now authorization :
  (forall r,
     protectRoute jwt_verify db env now authorization = Rejected r ->
     status r = 401%Z /\ success r = false)
  /\ (forall obj,
        protectRoute jwt_verify db env now authorization = Next obj ->
        exists header token payload u,
          authorization = Some header
          /\ String.prefix "Bearer " header = true
          /\ split_space_1 header = Some token
          /\ verificarToken jwt_verify env now token = Decoded payload
          /\ payload !! "id" = Some (JNum (u_id u))
          /\ In u (users db)
          /\ obj = delete "password" (User_toJSON u))
  /\ (authorization = None ->
      protectRoute jwt_verify db env now authorization
      = unauthorized token_not_provided)
  /\ (forall header,
        authorization = Some header -> String.prefix "Bearer " header = false ->
        protectRoute jwt_verify db env now authorization
        = unauthorized token_not_provided).
Proof.
  unfold protectRoute, unauthorized. split; [|split; [|split]].
  - intros r. destruct authorization as [h|]; [|now intros [= <-]].
    destruct (negb (String.prefix "Bearer " h)); [now intros [= <-]|].
    destruct (match split_space_1 h with
              | Some token => verificarToken jwt_verify env now token
              | None => JsonWebTokenError
              end) as [payload| | |]; try (now intros [= <-]).
    destruct (match payload !! "id" with
              | Some (JNum id) => User_findByPk_exclude_password id db
              | _ => None
              end); [discriminate|now intros [= <-]].
  - intros obj. destruct authorization as [h|]; [|discriminate].
    destruct (String.prefix "Bearer " h) eqn:Hp; simpl; [|discriminate].
    destruct (split_space_1 h) as [token|] eqn:Ht; [|discriminate].
    destruct (verificarToken jwt_verify env now token) as [payload| | |] eqn:Hv;
      try discriminate.
    destruct (payload !! "id") as [[| |id|]|] eqn:Hid; try discriminate.
    unfold User_findByPk_exclude_password.
    destruct (List.find _ (users db)) as [u|] eqn:Hf; simpl; [|discriminate].
    intros [= <-]. apply find_some in Hf as [Hin Hu]. apply Z.eqb_eq in Hu.
    exists h, token, payload, u. subst id. repeat split; auto.
  - now intros ->.
  - intros header -> Hp. now rewrite Hp.
Qed.

Lemma set_active_row_id uid a u : u_id (set_active_row uid a u) = u_id u.
Proof. unfold set_active_row. now destruct (u_id u =? uid)%Z. Qed.

Lemma delete_active_set_active_row uid a u :
  delete "active" (delete "password" (User_toJSON (set_active_row uid a u)))
  = delete "active" (delete "password" (User_toJSON u)).
Proof.
  unfold set_active_row. destruct (u_id u =? uid)%Z; [|reflexivity].
  apply map_eq. intros k. destruct (decide (k = "active")) as [->|Hk].
  - now rewrite !lookup_delete_eq.
  - rewrite !lookup_delete_ne by congruence.
    destruct (decide (k = "password")) as [->|Hk'].
    + now rewrite !lookup_delete_eq.
    + rewrite !lookup_delete_ne by congruence.
      unfold User_toJSON; simpl.
      rewrite !lookup_insert. repeat case_decide; congruence.
Qed.

(** X14.  The auth middleware does not look at the active flag: whether a
    request passes it is the same after any user is activated or
    deactivated, and the user it attaches differs in the [active]
    member only. *)
Theorem protectRoute_ignores_active db env now authorization uid a :
  guard_passes (protectRoute jwt_verify (set_active uid a db) env now
                  authorization)
  = guard_passes (protectRoute jwt_verify db env now authorization)
  /\ forall obj,
       protectRoute jwt_verify db env now authorization = Next obj ->
       exists obj',
         protectRoute jwt_verify (set_active uid a db) env now authorization
         = Next obj'
         /\ delete "active" obj' = delete "active" obj.
Proof.
  assert (E : forall id,
            User_findByPk_exclude_password id (set_active uid a db)
            = (fun u => delete "password" (User_toJSON (set_active_row uid a u)))
                <$> List.find (fun u => (u_id u =? id)%Z) (users db)).
  { intros id. unfold User_findByPk_exclude_password, set_active; simpl.
    rewrite find_map_same by (intros u; now rewrite set_active_row_id).
    now destruct (List.find _ (users db)). }
  unfold protectRoute, unauthorized.
  destruct authorization as [h|]; [|split; [reflexivity|discriminate]].
  destruct (negb (String.prefix "Bearer " h));
    [split; [reflexivity|discriminate]|].
  destruct (match split_space_1 h with
            | Some token => verificarToken jwt_verify env now token
            | None => JsonWebTokenError
            end) as [payload| | |];
    try (split; [reflexivity|discriminate]).
  destruct (payload !! "id") as [[| |id|]|];
    try (split; [reflexivity|discriminate]).
  rewrite E. unfold User_findByPk_exclude_password.
  destruct (List.find _ (users db)) as [u|]; simpl;
    [|split; [reflexivity|discriminate]].
  split; [reflexivity|]. intros obj [= <-]. eexists. split; [reflexivity|].
  apply delete_active_set_active_row.
Qed.

Lemma User_update_name_None id (us : list User) :
  User_update_name None id us = us.
Proof.
  unfold User_update_name. rewrite <- (List.map_id us) at 2.
  apply List.map_ext. intros [i n e p a l]; simpl.
  now destruct (i =? id)%Z.
Qed.

(** X15.  [updateProfile] changes the name of the caller's row and nothing
    else: no id, email, stored hash, active flag or lastAccess of any
    user, no row with another id, no task; without a name sent the
    store is unchanged.  The answer carries the caller's row after the
    update, without the password. *)
Theorem updateProfile_frame db reqUser name :
  forall id u,
       reqUser !! "id" = Some (JNum id) ->
       List.find (fun x => (u_id x =? id)%Z) (users db) = Some u ->
       exists db' obj,
         updateProfile db reqUser name
         = (db', {| status := 200; success := true;
                    body := BUser (Some "Profile updated successfully")
                              (Some obj) |})
         /\ obj !! "id" = Some (JNum id)
         /\ obj !! "name" = Some (JStr (default (u_name u) name))
         /\ obj !! "email" = Some (JStr (u_email u))
         /\ obj !! "password" = None
         /\ List.map u_id (users db') = List.map u_id (users db)
         /\ List.map u_email (users db') = List.map u_email (users db)
         /\ List.map u_password (users db') = List.map u_password (users db)
         /\ List.map u_active (users db') = List.map u_active (users db)
         /\ List.map u_lastAccess (users db')
            = List.map u_lastAccess (users db)
         /\ (forall x, In x (users db) -> u_id x <> id -> In x (users db'))
         /\ tasks db' = tasks db
         /\ (name = None -> db' = db).
Proof.
  - intros id u Hid Hf. unfold updateProfile. rewrite Hid.
    pose proof (find_some _ _ Hf) as [Hin Hu]. apply Z.eqb_eq in Hu.
    set (f := fun x : User =>
                if (u_id x =? id)%Z
                then {| u_id := u_id x; u_name := default (u_name x) name;
                        u_email := u_email x; u_password := u_password x;
                        u_active := u_active x;
                        u_lastAccess := u_lastAccess x |}
                else x).
    assert (E : List.find (fun x => (u_id x =? id)%Z)
                  (User_update_name name id (users db)) = Some (f u)).
    { unfold User_update_name. fold f. rewrite find_map_same; [now rewrite Hf|].
      intros x. unfold f. now destruct (u_id x =? id)%Z eqn:Ex. }
    unfold User_findByPk_exclude_password. simpl users. rewrite E. simpl.
    eexists _, _. split; [reflexivity|].
    unfold f. rewrite <- Hu, Z.eqb_refl.
    split; [reflexivity|]. split; [reflexivity|]. split; [reflexivity|].
    split; [reflexivity|].
    split; [apply (map_User_update_name u_id); reflexivity|].
    split; [apply (map_User_update_name u_email); reflexivity|].
    split; [apply (map_User_update_name u_password); reflexivity|].
    split; [apply (map_User_update_name u_active); reflexivity|].
    split; [apply (map_User_update_name u_lastAccess); reflexivity|].
    split.
    { intros x Hx Hne. unfold User_update_name. apply in_map_iff.
      exists x. split; [|assumption].
      apply Z.eqb_neq in Hne. now rewrite Hne. }
    split; [reflexivity|].
    intros ->. rewrite User_update_name_None. now destruct db.
Qed.

End AuthExtras.

(** * Connecting to the database *)

Lemma retry_loop_all_fail authenticate retries delay remaining i waited :
  (remaining + i = retries)%nat -> (0 < remaining)%nat ->
  (forall j, (i <= j < retries)%nat -> authenticate j = false) ->
  retry_loop authenticate retries delay remaining i waited
  = (Thrown (retries - 1), retries,
     (waited + Z.of_nat (remaining - 1) * delay)%Z).
Proof.
  revert i waited. induction remaining as [|rem IH]; intros i waited Hsum Hpos Hall;
    [lia|].
  cbn [retry_loop]. rewrite (Hall i) by lia.
  destruct (Nat.eqb_spec (S i) retries) as [E|E].
  - assert (rem = 0)%nat by lia. subst rem.
    replace (retries - 1)%nat with i by lia. rewrite <- E.
    simpl. now rewrite Z.add_0_r.
  - rewrite IH by (try lia; intros j Hj; apply Hall; lia).
    f_equal. replace (S rem - 1)%nat with (S (rem - 1)) by lia.
    rewrite Nat2Z.inj_succ. lia.
Qed.

Lemma retry_loop_success authenticate retries delay remaining i waited k :
  (remaining + i = retries)%nat -> (i <= k < retries)%nat ->
  authenticate k = true ->
  (forall j, (i <= j < k)%nat -> authenticate j = false) ->
  retry_loop authenticate retries delay remaining i waited
  = (Connected, S k, (waited + Z.of_nat (k - i) * delay)%Z).
Proof.
  revert i waited.
  induction remaining as [|rem IH]; intros i waited Hsum Hk Hok Hfail; [lia|].
  cbn [retry_loop]. destruct (Nat.eq_dec i k) as [->|Hne].
  - rewrite Hok, Nat.sub_diag. simpl. now rewrite Z.add_0_r.
  - rewrite (Hfail i) by lia.
    destruct (Nat.eqb_spec (S i) retries) as [E|E]; [lia|].
    rewrite IH by (try lia; try assumption; intros j Hj; apply Hfail; lia).
    f_equal. replace (k - i)%nat with (S (k - S i)) by lia.
    rewrite Nat2Z.inj_succ. lia.
Qed.

(** X18.  How [connectWithRetry] ends.  If the attempt with index [k] (below
    [retries]) is the first that succeeds, it returns [true] after
    [k + 1] attempts and [k] waits.  If all of the first [retries]
    attempts fail, it throws the error of the last one after [retries]
    attempts and [retries - 1] waits: there is no wait after the last
    attempt.  With [retries = 0] it makes no attempt and returns
    [undefined]. *)
Theorem connectWithRetry_outcome authenticate retries delay :
  (forall k,
     (k < retries)%nat -> authenticate k = true ->
     (forall j, (j < k)%nat -> authenticate j = false) ->
     connectWithRetry authenticate retries delay
     = (Connected, S k, (Z.of_nat k * delay)%Z))
  /\ ((0 < retries)%nat ->
      (forall j, (j < retries)%nat -> authenticate j = false) ->
      connectWithRetry authenticate retries delay
      = (Thrown (retries - 1), retries, (Z.of_nat (retries - 1) * delay)%Z))
  /\ (retries = 0%nat ->
      connectWithRetry authenticate retries delay
      = (ReturnedUndefined, 0%nat, 0%Z)).
Proof.
  unfold connectWithRetry. split; [|split].
  - intros k Hk Hok Hfail.
    rewrite (retry_loop_success authenticate retries delay retries 0 0 k);
      try lia; try assumption.
    + now rewrite Nat.sub_0_r.
    + intros j Hj. apply Hfail. lia.
  - intros Hpos Hall.
    rewrite retry_loop_all_fail; try lia.
    + reflexivity.
    + intros j Hj. apply Hall. lia.
  - intros ->. reflexivity.
Qed.

(** * The role check *)

(** X17.  [verifyRole] lets a request through only when it has a user whose
    role counts as true and is one of the allowed roles, so a role that
    is the empty string, zero or null is refused even when it is
    listed, and no one passes an empty list.  Allowing more roles never
    refuses a request that passed.  Without a user the answer is 401,
    with a user that is refused it is 403. *)
Theorem verifyRole_passes allowedRoles reqUser :
  (forall user,
     verifyRole allowedRoles reqUser = Next user ->
     reqUser = Some user
     /\ exists role,
          user !! "role" = Some role /\ truthy role = true
          /\ role ∈ allowedRoles)
  /\ (forall user more,
        verifyRole allowedRoles reqUser = Next user ->
        verifyRole (allowedRoles ++ more)%list reqUser = Next user)
  /\ (forall r,
        verifyRole allowedRoles reqUser = Rejected r ->
        (reqUser = None /\ status r = 401%Z)
        \/ (is_Some reqUser /\ status r = 403%Z))
  /\ guard_passes (verifyRole [] reqUser) = false.
Proof.
  unfold verifyRole. split; [|split; [|split]].
  - intros user. destruct reqUser as [u|]; [|discriminate].
    destruct (u !! "role") as [role|] eqn:E; [|discriminate].
    destruct (truthy role) eqn:Ht; simpl; [|discriminate].
    unfold includes. destruct (bool_decide (role ∈ allowedRoles)) eqn:Hi;
      [|discriminate].
    intros [= <-]. split; [reflexivity|]. exists role.
    apply bool_decide_eq_true in Hi. auto.
  - intros user more. destruct reqUser as [u|]; [|discriminate].
    destruct (u !! "role") as [role|] eqn:E; [|discriminate].
    destruct (truthy role) eqn:Ht; simpl; [|discriminate].
    unfold includes. destruct (bool_decide (role ∈ allowedRoles)) eqn:Hi;
      [|discriminate].
    intros [= <-]. apply bool_decide_eq_true in Hi.
    rewrite (bool_decide_eq_true_2 (role ∈ (allowedRoles ++ more)%list)); [reflexivity|].
    apply elem_of_app. now left.
  - intros r. destruct reqUser as [u|].
    + destruct (match u !! "role" with
                | Some role => truthy role && includes allowedRoles role
                | None => false
                end); [discriminate|].
      intros [= <-]. right. split; [eexists; reflexivity|reflexivity].
    + intros [= <-]. now left.
  - destruct reqUser as [u|]; [|reflexivity].
    destruct (u !! "role") as [role|]; [|reflexivity].
    unfold includes. rewrite bool_decide_eq_false_2 by apply not_elem_of_nil.
    now rewrite andb_false_r.
Qed.

(** * The further properties at concrete requests *)

Lemma demo_db_users_wf : users_wf demo_db.
Proof.
  split; [|split].
  - apply (bool_decide_unpack _). vm_compute. exact I.
  - apply (bool_decide_unpack _). vm_compute. exact I.
  - repeat constructor; simpl; lia.
Defined.

Lemma task_handlers_keep_wf_witness :
  tasks_wf (fst (createTask demo_db 500 1 (title_only "shop")))
  /\ tasks_wf (fst (deleteTask exact_iLike demo_db 1 2)).
Proof.
  destruct (task_handlers_keep_wf exact_iLike demo_db 500 1 2
              (title_only "shop") only_completed_true no_query demo_db_wf)
    as (H1 & _ & H3 & _).
  split; assumption.
Defined.

Lemma createTask_then_getTask_witness :
  exists t db',
    createTask demo_db 500 1 (title_only "shop")
    = (db', {| status := 201; success := true;
               body := BTask (Some "Task created successfully") t |})
    /\ getTask exact_iLike db' 1 (t_id t)
       = (db', {| status := 200; success := true; body := BTask None t |})
    /\ t_title t = "shop" /\ t_completed t = false /\ t_priority t = medium.
Proof.
  destruct (createTask_then_getTask exact_iLike demo_db 500 1
              (title_only "shop") demo_db_wf)
    as (t & db' & Hc & Hg & _ & Ht & _ & _ & _ & Hcomp & Hp & _).
  exists t, db'. repeat split; try assumption. now apply Hp.
Defined.

Lemma getTask_stored_witness :
  getTask exact_iLike demo_db 1 3
  = (demo_db, {| status := 200; success := true;
                 body := BTask None
                           (task_of 3 1 "email" false (Some 70) low 300) |})
  /\ getTask exact_iLike demo_db 2 3 = (demo_db, not_found).
Proof.
  split.
  - apply (proj1 (getTask_stored exact_iLike demo_db 1
                    (task_of 3 1 "email" false (Some 70) low 300) demo_db_wf
                    ltac:(simpl; tauto))).
    reflexivity.
  - apply (proj1 (proj2 (getTask_stored exact_iLike demo_db 2
                           (task_of 3 1 "email" false (Some 70) low 300)
                           demo_db_wf ltac:(simpl; tauto)))).
    simpl. lia.
Defined.

Lemma deleteTask_owned_witness :
  exists db',
    deleteTask exact_iLike demo_db 1 2
    = (db', {| status := 200; success := true;
               body := BMessage "Task deleted successfully" |})
    /\ List.map t_id (tasks db') = [1; 3; 4]%Z
    /\ deleteTask exact_iLike db' 1 2 = (db', not_found).
Proof.
  destruct (deleteTask_owned exact_iLike demo_db
              (task_of 2 1 "call" false None low 200) demo_db_wf)
    as (db' & Hd & Ht & _ & _ & _ & _ & Hagain).
  - simpl. tauto.
  - exists db'. split; [exact Hd|]. split; [now rewrite Ht|exact Hagain].
Defined.

Lemma updateTask_twice_witness :
  updateTask exact_iLike
    (fst (updateTask exact_iLike demo_db 1 2 only_completed_true)) 1 2
    only_completed_true
  = updateTask exact_iLike demo_db 1 2 only_completed_true.
Proof.
  exact (updateTask_twice exact_iLike demo_db 1 2 only_completed_true
           (task_of 2 1 "call" false None low 200) eq_refl).
Defined.


Lemma getTasks_pagination_exact_witness :
  exists rows,
    getTasks exact_iLike demo_db 1 (set_page (set_limit no_query 2) 2)
    = (demo_db, {| status := 200; success := true;
                   body := BTasks rows
                     {| pg_total := 3; pg_page := 2; pg_limit := 2;
                        pg_totalPages := 2 |} |})
    /\ (Z.of_nat (length rows) <= 2)%Z.
Proof.
  destruct (getTasks_pagination_exact exact_iLike demo_db 1
              (set_page (set_limit no_query 2) 2) 2 2 eq_refl eq_refl
              ltac:(lia) ltac:(lia) ltac:(reflexivity) ltac:(reflexivity)
              ltac:(reflexivity))
    as (rows & Hg & _ & Hlen & _).
  exists rows. split; [exact Hg|exact Hlen].
Defined.

Lemma all_pages_cover_witness :
  first_pages exact_iLike demo_db 1 no_query 2 2
  = merge_sort (order_le listing_order)
      (List.filter (where_matches exact_iLike (listing_where 1 no_query))
         (tasks demo_db))
  /\ List.map t_id (first_pages exact_iLike demo_db 1 no_query 2 2)
     = [3; 2; 1]%Z.
Proof.
  split; [|reflexivity].
  refine (proj1 (all_pages_cover exact_iLike demo_db 1 no_query 2
                   ltac:(lia) ltac:(reflexivity) _)).
  intros a b [<-|[<-|[<-|[]]]] [<-|[<-|[<-|[]]]]; vm_compute; intros H;
    (reflexivity || discriminate).
Defined.

Lemma other_users_writes_invisible_witness :
  snd (getTasks exact_iLike (fst (deleteTask exact_iLike demo_db 2 4)) 1
         no_query)
  = snd (getTasks exact_iLike demo_db 1 no_query)
  /\ snd (getStatistics exact_iLike (fst (deleteTask exact_iLike demo_db 2 4)) 1)
     = snd (getStatistics exact_iLike demo_db 1).
Proof.
  destruct (other_users_writes_invisible exact_iLike demo_db 1 2 500 4
              (title_only "shop") only_completed_true no_query 1
              (fst (deleteTask exact_iLike demo_db 2 4)) demo_db_wf)
    as (H1 & H2 & _).
  - lia.
  - right. right. reflexivity.
  - split; assumption.
Defined.

Lemma auth_handlers_keep_users_wf_witness :
  users_wf (fst (register demo_hash demo_sign demo_db demo_env 1000
                   "Eva" "eva@example.com" "Passw0rd"))
  /\ users_wf (fst (login demo_validate demo_sign demo_db demo_env 1000
                      "ana@example.com" "Secret1")).
Proof.
  destruct (auth_handlers_keep_users_wf demo_hash demo_validate demo_sign
              demo_db demo_env 1000 "Eva" "eva@example.com" "Passw0rd"
              ∅ None demo_db_users_wf) as (H1 & _).
  destruct (auth_handlers_keep_users_wf demo_hash demo_validate demo_sign
              demo_db demo_env 1000 "Ana" "ana@example.com" "Secret1"
              ∅ None demo_db_users_wf) as (_ & H2 & _).
  split; assumption.
Defined.

Lemma register_then_login_witness :
  exists db1 obj,
    register demo_hash demo_sign demo_db demo_env 1000
      "Eva" "eva@example.com" "Passw0rd"
    = (db1, {| status := 201; success := true;
               body := BUserToken "User registered successfully" obj
                         (generarToken demo_sign demo_env 1000 obj) |})
    /\ status (snd (login demo_validate demo_sign db1 demo_env 2000
                      "eva@example.com" "Passw0rd")) = 200%Z
    /\ status (snd (login demo_validate demo_sign db1 demo_env 2000
                      "eva@example.com" "passw0rd")) = 401%Z.
Proof.
  destruct (register_then_login demo_hash demo_validate demo_sign demo_db
              demo_env 1000 2000 "Eva" "eva@example.com" "Passw0rd")
    as (db1 & obj & Hr & (db2 & Hl) & Hw & _).
  - intros u [<-|[<-|[]]]; discriminate.
  - reflexivity.
  - exists db1, obj. split; [exact Hr|]. split; [now rewrite Hl|].
    now rewrite (Hw "passw0rd" eq_refl).
Defined.

Lemma login_token_passes_guard_witness :
  exists db' obj,
    fst (login demo_validate demo_sign demo_db demo_env 1000
           "ana@example.com" "Secret1") = db'
    /\ protectRoute demo_verify db' demo_env 2000
         (Some "Bearer jwt:ana@example.com") = Next obj
    /\ obj !! "lastAccess" = Some (JNum 1000)
    /\ obj !! "password" = None.
Proof.
  destruct (login_token_passes_guard demo_validate demo_sign demo_verify
              demo_db demo_env 1000 2000 "ana@example.com" "Secret1" ana
              (<["id" := JNum 1]> ∅) eq_refl eq_refl eq_refl eq_refl eq_refl
              eq_refl)
    as (db' & obj & Hl & Hg & _ & _ & _ & Hla & Hpw).
  exists db', obj. split; [now rewrite Hl|]. split; [exact Hg|].
  split; assumption.
Defined.

Lemma protectRoute_sound_witness :
  (exists u,
     protectRoute demo_verify demo_db demo_env 2000
       (Some "Bearer jwt:ana@example.com")
     = Next (delete "password" (User_toJSON u))
     /\ In u (users demo_db))
  /\ protectRoute demo_verify demo_db demo_env 2000 (Some "Basic abc")
     = unauthorized token_not_provided
  /\ status {| status := 401; success := false;
               body := BMessage "Invalid token" |} = 401%Z.
Proof.
  destruct (protectRoute_sound demo_verify demo_db demo_env 2000
              (Some "Bearer jwt:ana@example.com")) as (_ & Hnext & _).
  destruct (protectRoute_sound demo_verify demo_db demo_env 2000
              (Some "Basic abc")) as (_ & _ & _ & Hbad).
  destruct (protectRoute_sound demo_verify demo_db demo_env 2000
              (Some "Bearer nonsense")) as (Hrej & _).
  split; [|split].
  - destruct (Hnext (delete "password" (User_toJSON ana)) eq_refl)
      as (h & tok & payload & u & _ & _ & _ & _ & _ & Hin & Hobj).
    exists u. split; [|exact Hin]. now rewrite <- Hobj.
  - exact (Hbad "Basic abc" eq_refl eq_refl).
  - exact (proj1 (Hrej _ eq_refl)).
Defined.

Lemma protectRoute_ignores_active_witness :
  status (snd (login demo_validate demo_sign (set_active 1 false demo_db)
                 demo_env 2000 "ana@example.com" "Secret1")) = 403%Z
  /\ exists obj',
       protectRoute demo_verify (set_active 1 false demo_db) demo_env 2000
         (Some "Bearer jwt:ana@example.com") = Next obj'
       /\ delete "active" obj'
          = delete "active" (delete "password" (User_toJSON ana)).
Proof.
  split; [reflexivity|].
  exact (proj2 (protectRoute_ignores_active demo_verify demo_db demo_env 2000
                  (Some "Bearer jwt:ana@example.com") 1 false)
           (delete "password" (User_toJSON ana)) eq_refl).
Defined.

Lemma updateProfile_frame_witness :
  exists db' obj,
    updateProfile demo_db (delete "password" (User_toJSON ana)) (Some "Ana Maria")
    = (db', {| status := 200; success := true;
               body := BUser (Some "Profile updated successfully") (Some obj) |})
    /\ obj !! "name" = Some (JStr "Ana Maria")
    /\ obj !! "email" = Some (JStr "ana@example.com")
    /\ List.map u_email (users db') = ["ana@example.com"; "luis@example.com"].
Proof.
  assert (Hid : (delete "password" (User_toJSON ana) : JObj) !! "id"
                = Some (JNum 1)) by (vm_compute; reflexivity).
  destruct (updateProfile_frame demo_db
              (delete "password" (User_toJSON ana)) (Some "Ana Maria")
              1%Z ana Hid eq_refl)
    as (db' & obj & Hu & _ & Hn & He & _ & _ & Hem & _).
  exists db', obj. split; [exact Hu|]. split; [exact Hn|].
  split; [exact He|exact Hem].
Defined.

Lemma connectWithRetry_outcome_witness :
  connectWithRetry ready_at_fourth 10 5000 = (Connected, 4%nat, 15000%Z)
  /\ connectWithRetry (fun _ => false) 10 5000 = (Thrown 9, 10%nat, 45000%Z)
  /\ connectWithRetry (fun _ => false) 0 5000 = (ReturnedUndefined, 0%nat, 0%Z).
Proof.
  split; [|split].
  - apply (proj1 (connectWithRetry_outcome ready_at_fourth 10 5000) 3%nat);
      [lia | reflexivity |].
    intros j Hj. unfold ready_at_fourth. apply Nat.leb_gt. lia.
  - apply (proj1 (proj2 (connectWithRetry_outcome (fun _ => false) 10 5000)));
      [lia | reflexivity].
  - now apply (proj2 (proj2 (connectWithRetry_outcome (fun _ => false) 0 5000))).
Defined.

Lemma verifyRole_passes_witness :
  verifyRole [JStr "admin"; JStr ""]
    (Some (<["role" := JStr "admin"]> (id_name_email ana)))
  = Next (<["role" := JStr "admin"]> (id_name_email ana))
  /\ verifyRole [JStr "admin"; JStr ""; JStr "staff"]
       (Some (<["role" := JStr "admin"]> (id_name_email ana)))
     = Next (<["role" := JStr "admin"]> (id_name_email ana))
  /\ guard_passes
       (verifyRole [JStr "admin"; JStr ""]
          (Some (<["role" := JStr ""]> (id_name_email ana)))) = false.
Proof.
  split; [reflexivity|]. split; [|reflexivity].
  exact (proj1 (proj2 (verifyRole_passes [JStr "admin"; JStr ""]
                         (Some (<["role" := JStr "admin"]> (id_name_email ana)))))
           _ [JStr "staff"] eq_refl).
Defined.

(** * What a login changes *)

(** X19.  A login that does not answer 200 leaves the store as it is, so
    failed attempts do not lock an account or change later answers.  A
    login that answers 200 changes nothing but a lastAccess: the ids,
    names, emails, stored hashes and active flags of the users and the
    tasks are as before. *)
Theorem login_effect (validatePassword : string -> string -> bool)
    (jwt_sign : JObj -> string -> string -> Z -> string)
    db env now email password :
  users_wf db ->
  (status (snd (login validatePassword jwt_sign db env now email password))
   <> 200%Z ->
   fst (login validatePassword jwt_sign db env now email password) = db)
  /\ (let db' := fst (login validatePassword jwt_sign db env now email password) in
      List.map u_id (users db') = List.map u_id (users db)
      /\ List.map u_name (users db') = List.map u_name (users db)
      /\ List.map u_email (users db') = List.map u_email (users db)
      /\ List.map u_password (users db') = List.map u_password (users db)
      /\ List.map u_active (users db') = List.map u_active (users db)
      /\ tasks db' = tasks db
      /\ nextUserId db' = nextUserId db).
Proof.
  intros Hwf. unfold login.
  destruct (User_findOne_email email db) as [u|] eqn:E; [|now repeat split].
  destruct (negb (u_active u)); [now repeat split|].
  destruct (negb (validatePassword (u_password u) password));
    [now repeat split|].
  split; [simpl; congruence|].
  apply User_findOne_email_Some in E as [Hin _].
  set (u' := {| u_id := u_id u; u_name := u_name u; u_email := u_email u;
                u_password := u_password u; u_active := u_active u;
                u_lastAccess := Some now |}).
  assert (Hinj : forall x, In x (users db) -> u_id x = u_id u' -> x = u)
    by (intros x Hx Hid; eapply users_wf_id_inj; eauto).
  simpl. repeat split; apply (map_save_user _ u u'); auto.
Qed.

Lemma login_effect_witness :
  fst (login demo_validate demo_sign demo_db demo_env 1000
         "ana@example.com" "Wrong99") = demo_db
  /\ List.map u_password
       (users (fst (login demo_validate demo_sign demo_db demo_env 1000
                      "ana@example.com" "Secret1")))
     = List.map u_password (users demo_db).
Proof.
  destruct (login_effect demo_validate demo_sign demo_db demo_env 1000
              "ana@example.com" "Wrong99" demo_db_users_wf) as (H1 & _).
  destruct (login_effect demo_validate demo_sign demo_db demo_env 1000
              "ana@example.com" "Secret1" demo_db_users_wf)
    as (_ & _ & _ & _ & H2 & _).
  split; [apply H1; vm_compute; discriminate|exact H2].
Defined.
